(** * lib/driver/llvm.cc: lowering LLVM IR to PTX and loading it as a CUDA module

    A shallow embedding of [triton::driver] as found in [lib/driver/llvm.cc]:
    [init_llvm], [find_and_replace], [vptx], [llir_to_ptx] and
    [ptx_to_cumodule], followed by the properties of these functions.

    Conventions.
    - [std::string] is a list of characters ([text]); [size_t] values are
      integers in [0, 2^64) and [size_t] arithmetic wraps modulo [2^64].
    - [int] values are integers; the code only compares them, takes minima
      and divides two-digit numbers by ten, so no [int] operation can wrap.
    - A function that may throw returns a [result].
    - LLVM, the shell, the file system and the CUDA driver are outside the
      file: their answers are parameters of the functions that call them. *)

From Stdlib Require Import ZArith Strings.String Strings.Ascii Numbers.DecimalString.
From Stdlib Require Import Sorting.Sorted.
From stdpp Require Import base list gmap strings.

Local Open Scope Z_scope.

(* ================================================================== *)
(** * Strings *)

Abbreviation text := (list ascii).

(** A string literal of the source. *)
Definition str (s : string) : text := list_ascii_of_string s.

(** The characters written ["\n"] and ["\t"] in the source. *)
Definition LF : ascii := "010"%char.
Definition TAB : ascii := "009"%char.

(** [std::string::size]. *)
Definition size (s : text) : Z := Z.of_nat (length s).

(** [std::to_string(int)]: decimal digits, with a leading minus sign for a
    negative number. *)
Definition to_string (n : Z) : text :=
  str (NilZero.string_of_int (Z.to_int n)).

(** [size_t] is a 64-bit unsigned integer. *)
Definition size_t (z : Z) : Z := z mod 2 ^ 64.

(** [std::string::npos], the value [(size_t)-1]. *)
Definition npos : Z := 2 ^ 64 - 1.

(** Does [pat] occur at the very start of [s]? *)
Fixpoint starts_with (pat s : text) : bool :=
  match pat, s with
  | [], _ => true
  | _ :: _, [] => false
  | p :: pat', c :: s' => if Ascii.eqb p c then starts_with pat' s' else false
  end.

(** Offset of the first occurrence of [pat] in [s]. *)
Fixpoint find_first (pat s : text) : option nat :=
  if starts_with pat s then Some 0%nat
  else match s with
       | [] => None
       | _ :: s' => S <$> find_first pat s'
       end.

(** [str.find(pat, pos)]: the lowest position [>= pos] at which [pat]
    occurs in [str], or [npos]; [npos] as well when [pos] lies beyond the
    end of [str]. *)
Definition find (str pat : text) (pos : Z) : Z :=
  if size str <? pos then npos
  else match find_first pat (drop (Z.to_nat pos) str) with
       | Some k => pos + Z.of_nat k
       | None => npos
       end.

(** [str.replace(pos, len, target)]: the characters [pos, pos + len) of
    [str], cut at the end of [str], are replaced by [target].  The library
    throws [out_of_range] when [pos > str.size()]; [find_and_replace], the
    only caller, passes a position returned by [find]. *)
Definition replace (str : text) (pos len : Z) (target : text) : text :=
  take (Z.to_nat pos) str ++ target
    ++ drop (Z.to_nat (pos + Z.min len (size str - pos))) str.

(** [static bool find_and_replace(std::string& str, const std::string&
    begin, const std::string& end, const std::string& target)].  The
    updated [str] is returned next to the boolean. *)
Definition find_and_replace (str begin end_ target : text) : text * bool :=
  let start_replace := find str begin 0 in
  let end_replace := find str end_ start_replace in
  if start_replace =? npos then (str, false)
  else (replace str start_replace
          (size_t (end_replace + 1 - start_replace)) target, true).

(** [while(find_and_replace(str, begin, end, target));].  The loop need
    not terminate, so it is run for at most [fuel] iterations; [None] means
    that the loop was still running when the fuel ran out. *)
Fixpoint while_find_and_replace (fuel : nat) (str begin end_ target : text)
  : option text :=
  match fuel with
  | O => None
  | S fuel' =>
      let '(str', found) := find_and_replace str begin end_ target in
      if found then while_find_and_replace fuel' str' begin end_ target
      else Some str'
  end.

(** [find_and_replace] without [size_t]: the three ways the call can go
    once the begin marker has been found. *)
Definition find_and_replace_cases (str begin end_ target : text)
  : text * bool :=
  match find_first begin str with
  | None => (str, false)
  | Some st =>
      match find_first end_ (drop st str) with
      | Some k => (take st str ++ target ++ drop (st + k + 1) str, true)
      | None =>
          (* [npos + 1 - st] wraps to [2^64 - st], which is [0] for [st = 0] *)
          match st with
          | O => (target ++ str, true)
          | S _ => (take st str ++ target, true)
          end
      end
  end.

(* ================================================================== *)
(** * Exceptions *)

Inductive exception : Type :=
  | runtime_error (what : text)    (* std::runtime_error *)
  | invalid_ptx                    (* exception::cuda::invalid_ptx *)
  | cuda_error (name : text).      (* any other exception of triton/driver/error.h *)

Inductive result (A : Type) : Type :=
  | Ok (a : A)
  | Throw (e : exception).
Arguments Ok {A} a.
Arguments Throw {A} e.

(* ================================================================== *)
(** * init_llvm *)

(** The four registration functions of the NVPTX backend. *)
Inductive registration : Type :=
  | LLVMInitializeNVPTXTargetInfo
  | LLVMInitializeNVPTXTarget
  | LLVMInitializeNVPTXTargetMC
  | LLVMInitializeNVPTXAsmPrinter.

(** The state of the process that [init_llvm] and [llir_to_ptx] touch: the
    function-local [static bool init], the registration calls made so far,
    in order, and the value of LLVM's [nvptx-short-ptr] option. *)
Record llvm_state : Type := {
  init : bool;
  registered : list registration;
  nvptx_short_ptr : bool
}.

(** A process before any call: [static bool init = false]. *)
Definition process_start : llvm_state :=
  {| init := false; registered := []; nvptx_short_ptr := false |}.

Definition backend_registration : list registration :=
  [ LLVMInitializeNVPTXTargetInfo; LLVMInitializeNVPTXTarget;
    LLVMInitializeNVPTXTargetMC; LLVMInitializeNVPTXAsmPrinter ].

(** [void init_llvm()]. *)
Definition init_llvm (s : llvm_state) : llvm_state :=
  if negb (init s) then
    {| init := true;
       registered := registered s ++ backend_registration;
       nvptx_short_ptr := nvptx_short_ptr s |}
  else s.

(* ================================================================== *)
(** * vptx *)

(** [int vptx(int version)]. *)
Definition vptx (version : Z) : result Z :=
  if version >=? 11030 then Ok 73 else
  if version >=? 11020 then Ok 72 else
  if version >=? 11010 then Ok 71 else
  if version >=? 11000 then Ok 70 else
  if version >=? 10020 then Ok 65 else
  if version >=? 10010 then Ok 64 else
  if version >=? 10000 then Ok 63 else
  Throw (runtime_error (str "Triton requires CUDA 10+")).

(* ================================================================== *)
(** * llir_to_ptx *)

(** Lines 142-143 of [llir_to_ptx]: the two loops that delete the inline
    assembly comments, each from its marker to the end of the line. *)
Definition begin_inline_asm : text := TAB :: str "// begin inline asm".
Definition end_inline_asm : text := TAB :: str "// end inline asm".

Definition strip_inline_asm (fuel : nat) (result : text) : option text :=
  match while_find_and_replace fuel result begin_inline_asm [LF] [] with
  | None => None
  | Some result => while_find_and_replace fuel result end_inline_asm [LF] []
  end.

Section CodeGenerator.

(** [llvm::Module]. *)
Variable llvm_module : Type.

(** Lines 109-136, the work done by LLVM: verify the module, build the
    target machine for a triple, a processor and a feature string, mark
    every function always-inline and emit assembly.  Its value is the text
    left in [buffer]. *)
Variable emit_assembly : llvm_module → text → text → text → text.

(** [std::string llir_to_ptx(llvm::Module* module, int cc, int version)],
    on the process state [s].  [None]: one of the two final loops did not
    finish within [fuel] iterations. *)
Definition llir_to_ptx (fuel : nat) (s : llvm_state) (module : llvm_module)
    (cc version : Z) : option (llvm_state * result text) :=
  (* LLVM version in use may not officially support target hardware *)
  let max_nvvm_cc := 75 in
  let max_nvvm_ptx := 64 in
  (* options: the NVPTX backend registers nvptx-short-ptr when it is
     loaded, so the lookup finds it and the assert holds *)
  let s := {| init := init s; registered := registered s;
              nvptx_short_ptr := true |} in
  (* compute capability *)
  let sm := str "sm_" ++ to_string cc in
  (* max PTX version *)
  match vptx version with
  | Throw e => Some (s, Throw e)
  | Ok ptx =>
      let ptx_major := Z.quot ptx 10 in
      let ptx_minor := Z.rem ptx 10 in
      (* create *)
      let triple := str "nvptx64-nvidia-cuda" in
      let proc := str "sm_" ++ to_string (Z.min cc max_nvvm_cc) in
      let features := str "+ptx" ++ to_string (Z.min ptx max_nvvm_ptx) in
      let s := init_llvm s in
      let buffer := emit_assembly module triple proc features in
      (* post-process *)
      let result := buffer in
      let result :=
        fst (find_and_replace result (str ".version") [LF]
               (str ".version " ++ to_string ptx_major ++ str "."
                  ++ to_string ptx_minor ++ [LF])) in
      let result :=
        fst (find_and_replace result (str ".target") [LF]
               (str ".target " ++ sm ++ [LF])) in
      match strip_inline_asm fuel result with
      | None => None
      | Some result => Some (s, Ok result)
      end
  end.

End CodeGenerator.

(* ================================================================== *)
(** * ptx_to_cumodule *)

(** [CUmodule], an opaque handle. *)
Definition CUmodule : Type := Z.

(** Calls that leave the process, in the order they are made. *)
Inductive call : Type :=
  | call_exec (cmd : text)
  | call_mkstemp (name : text)
  | call_system (cmd : text)
  | call_cuModuleLoad (fname : text)
  | call_cuModuleLoadDataEx (image : text)
  | call_unlink (path : text).

(** What [ptx_to_cumodule] can change: the files, the two output streams,
    and the calls made. *)
Record world : Type := {
  files : gmap text text;
  cout : text;
  cerr : text;
  calls : list call
}.

(** The answers of what lies outside the file.
    - [on_exec cmd]: exit status and captured output of [tools::exec]
      (triton/tools/sys/exec.hpp).
    - [on_mkstemp template fs]: the characters [mkstemp] puts in place of the
      six [X] of the template.
    - [on_system cmd fs]: the files after the shell has run [cmd], and the
      value [system] returns.
    - [on_cuModuleLoad fname fs]: [dispatch::cuModuleLoad]
      (triton/driver/dispatch.h) stores a handle or throws.
    - [on_cuModuleLoadDataEx image]: [dispatch::cuModuleLoadDataEx] stores a
      handle or throws; with it, what the driver wrote to the error and the
      information log buffers. *)
Record environment : Type := {
  on_exec : text → Z * text;
  on_mkstemp : text → gmap text text → text;
  on_system : text → gmap text text → gmap text text * Z;
  on_cuModuleLoad : text → gmap text text → result CUmodule;
  on_cuModuleLoadDataEx : text → result CUmodule * text * text
}.

(** Computations on the world that return or throw. *)
Definition io (A : Type) : Type := world → world * result A.

Definition ret {A : Type} (a : A) : io A := λ w, (w, Ok a).

Definition throw {A : Type} (e : exception) : io A := λ w, (w, Throw e).

Definition bind {A B : Type} (m : io A) (k : A → io B) : io B :=
  λ w, match m w with
       | (w', Ok a) => k a w'
       | (w', Throw e) => (w', Throw e)
       end.

(** [try { body } catch (...) { handler }]. *)
Definition try_catch {A : Type} (body : io A) (handler : exception → io A)
  : io A :=
  λ w, match body w with
       | (w', Ok a) => (w', Ok a)
       | (w', Throw e) => handler e w'
       end.

Notation "x <- m ;; k" := (bind m (λ x, k))
  (at level 60, m at next level, right associativity).
Notation "m ;;; k" := (bind m (λ _, k))
  (at level 60, right associativity).

Definition record_call (c : call) (w : world) : world :=
  {| files := files w; cout := cout w; cerr := cerr w;
     calls := calls w ++ [c] |}.

Definition set_files (fs : gmap text text) (w : world) : world :=
  {| files := fs; cout := cout w; cerr := cerr w; calls := calls w |}.

(** [tools::exec(cmd, out)]: the exit status and the output. *)
Definition exec (env : environment) (cmd : text) : io (Z * text) :=
  λ w, (record_call (call_exec cmd) w, Ok (on_exec env cmd)).

(** [mkstemp(template)]: the six last characters of the template are
    replaced, the file of that name is created empty; the name is returned. *)
Definition mkstemp (env : environment) (template : text) : io text :=
  λ w, let name := take (length template - 6) template
                     ++ on_mkstemp env template (files w) in
       (record_call (call_mkstemp name)
          (set_files (<[name := []]> (files w)) w), Ok name).

(** [std::ofstream ofs(path); ofs << content; ofs.close();]. *)
Definition ofstream (path content : text) : io unit :=
  λ w, (set_files (<[path := content]> (files w)) w, Ok tt).

(** [system(cmd)]. *)
Definition system (env : environment) (cmd : text) : io Z :=
  λ w, let '(fs, status) := on_system env cmd (files w) in
       (record_call (call_system cmd) (set_files fs w), Ok status).

(** [dispatch::cuModuleLoad(&ret, fname)]. *)
Definition cuModuleLoad (env : environment) (fname : text) : io CUmodule :=
  λ w, (record_call (call_cuModuleLoad fname) w,
        on_cuModuleLoad env fname (files w)).

(** [dispatch::cuModuleLoadDataEx(&ret, image, 5, opt, optval)] with the
    two log buffers of the given sizes: the handle and the buffers' contents
    when the call returns; when it throws, the buffers go out of scope. *)
Definition cuModuleLoadDataEx (env : environment) (image : text)
    (errbufsize logbufsize : Z) : io (CUmodule * text * text) :=
  λ w, let '(r, err, log) := on_cuModuleLoadDataEx env image in
       (record_call (call_cuModuleLoadDataEx image) w,
        match r with
        | Ok m => Ok (m, take (Z.to_nat errbufsize) err,
                      take (Z.to_nat logbufsize) log)
        | Throw e => Throw e
        end).

(** [unlink(path)]. *)
Definition unlink (path : text) : io unit :=
  λ w, (record_call (call_unlink path)
          (set_files (delete path (files w)) w), Ok tt).

(** [std::cout << s << std::endl] and [std::cerr << s << std::endl]. *)
Definition cout_endl (s : text) : io unit :=
  λ w, ({| files := files w; cout := cout w ++ s ++ [LF]; cerr := cerr w;
           calls := calls w |}, Ok tt).

Definition cerr_endl (s : text) : io unit :=
  λ w, ({| files := files w; cout := cout w; cerr := cerr w ++ s ++ [LF];
           calls := calls w |}, Ok tt).

(** The [try] block of [ptx_to_cumodule], lines 150-189. *)
Definition ptx_to_cumodule_try (env : environment) (ptx : text) (cc : Z)
  : io CUmodule :=
  (* use ptxas if present in PATH. Otherwise, use JIT from the driver *)
  let ptxas := str "ptxas" in
  probe <- exec env (ptxas ++ str " --version 2>&1") ;;
  let use_system_ptxas := fst probe =? 0 in
  if use_system_ptxas then
    (* compile ptx with ptxas *)
    fsrc <- mkstemp env (str "/tmp/triton_k_XXXXXX") ;;
    flog <- mkstemp env (str "/tmp/triton_l_XXXXXX") ;;
    ofstream fsrc ptx ;;;
    let cmd := ptxas ++ str " -v --gpu-name=sm_" ++ to_string cc ++ str " "
                 ++ fsrc ++ str " -o " ++ fsrc ++ str ".o 2> " ++ flog in
    err <- system env cmd ;;
    ret_ <- cuModuleLoad env (fsrc ++ str ".o") ;;
    unlink fsrc ;;;
    unlink flog ;;;
    ret ret_
  else
    (* Use PTXAS included in driver *)
    let errbufsize := 8192 in
    let logbufsize := 8192 in
    loaded <- cuModuleLoadDataEx env ptx errbufsize logbufsize ;;
    ret (fst (fst loaded)).

(** [CUmodule ptx_to_cumodule(const std::string& ptx, int cc)]. *)
Definition ptx_to_cumodule (env : environment) (ptx : text) (cc : Z)
  : io CUmodule :=
  try_catch (ptx_to_cumodule_try env ptx cc)
    (λ e, match e with
          | invalid_ptx =>
              cout_endl ptx ;;;
              cerr_endl (str "It appears that Triton produced invalid PTX code:") ;;;
              throw invalid_ptx
          | _ => throw e
          end).

(* ================================================================== *)
(** * Inputs used in examples *)

(** An end marker written in the middle of the words of a begin marker. *)
Definition begin_around_end : text :=
  TAB :: str "// begin" ++ end_inline_asm ++ [LF] ++ str " inline asm" ++ [LF].

(* ================================================================== *)
(** * The directives *)

(** [.version <major>.<minor>] and its line end, for an instruction set
    version of [major * 10 + minor]. *)
Definition version_directive (ptx : Z) : text :=
  str ".version " ++ to_string (Z.quot ptx 10) ++ str "."
    ++ to_string (Z.rem ptx 10) ++ [LF].

(** [.target sm_<cc>] and its line end. *)
Definition target_directive (cc : Z) : text :=
  str ".target sm_" ++ to_string cc ++ [LF].

(** A stand-in for LLVM that begins its text as the NVPTX printer does, with
    PTX 6.4 and the processor it is given, and then prints one instruction
    between the two inline assembly comments. *)
Definition nvptx_printer (module : unit) (triple proc features : text) : text :=
  str "//" ++ [LF] ++ str "// Generated by LLVM NVPTX Back-End" ++ [LF]
    ++ str "//" ++ [LF] ++ [LF]
    ++ str ".version 6.4" ++ [LF]
    ++ str ".target " ++ proc ++ [LF]
    ++ str ".address_size 64" ++ [LF] ++ [LF]
    ++ begin_inline_asm ++ [LF]
    ++ TAB :: str "mov.u32 %r1, %tid.x;" ++ [LF]
    ++ end_inline_asm ++ [LF].

Definition nvptx_preamble : text :=
  str "//" ++ [LF] ++ str "// Generated by LLVM NVPTX Back-End" ++ [LF]
    ++ str "//" ++ [LF] ++ [LF].

Definition nvptx_body : text :=
  str ".address_size 64" ++ [LF] ++ [LF]
    ++ begin_inline_asm ++ [LF]
    ++ TAB :: str "mov.u32 %r1, %tid.x;" ++ [LF]
    ++ end_inline_asm ++ [LF].

(* ================================================================== *)
(** * The names and values inside ptx_to_cumodule *)

(** The command of line 153. *)
Definition ptxas_probe : text := str "ptxas" ++ str " --version 2>&1".

(** [use_system_ptxas], line 153. *)
Definition use_system_ptxas (env : environment) : bool :=
  fst (on_exec env ptxas_probe) =? 0.

(** [fsrc] and [flog], the names the two [mkstemp] calls produce from a
    world [w]. *)
Definition fsrc_name (env : environment) (w : world) : text :=
  str "/tmp/triton_k_" ++ on_mkstemp env (str "/tmp/triton_k_XXXXXX") (files w).

Definition flog_name (env : environment) (w : world) : text :=
  str "/tmp/triton_l_"
    ++ on_mkstemp env (str "/tmp/triton_l_XXXXXX")
         (<[fsrc_name env w := []]> (files w)).

(** [fsrc + ".o"], the file the assembler is told to write. *)
Definition object_name (env : environment) (w : world) : text :=
  fsrc_name env w ++ str ".o".

(** [cmd], line 169. *)
Definition ptxas_cmd (env : environment) (cc : Z) (w : world) : text :=
  str "ptxas" ++ str " -v --gpu-name=sm_" ++ to_string cc ++ str " "
    ++ fsrc_name env w ++ str " -o " ++ fsrc_name env w ++ str ".o 2> "
    ++ flog_name env w.

(** The files when [system] is called: both temporaries exist, [fsrc] holds
    the PTX. *)
Definition files_before_ptxas (env : environment) (ptx : text) (w : world)
  : gmap text text :=
  <[fsrc_name env w := ptx]>
    (<[flog_name env w := []]> (<[fsrc_name env w := []]> (files w))).

(** The files the shell leaves and the value [system] returns, line 170. *)
Definition assembled (env : environment) (ptx : text) (cc : Z) (w : world)
  : gmap text text * Z :=
  on_system env (ptxas_cmd env cc w) (files_before_ptxas env ptx w).

(** What the driver answers to the load of the strategy chosen. *)
Definition driver_answer (env : environment) (ptx : text) (cc : Z) (w : world)
  : result CUmodule :=
  if use_system_ptxas env
  then on_cuModuleLoad env (object_name env w) (fst (assembled env ptx cc w))
  else fst (fst (on_cuModuleLoadDataEx env ptx)).

(** The line written to [std::cerr] by the handler. *)
Definition invalid_ptx_message : text :=
  str "It appears that Triton produced invalid PTX code:".

(* ================================================================== *)
(** * Environments used in examples *)

(** [ptxas] is installed.  It rejects the input: it writes its complaint to
    the log file and no object file, and exits with status 255.  The driver
    loads a file that exists and throws for one that does not. *)
Definition ptxas_failing : environment := {|
  on_exec := λ _, (0, str "ptxas: NVIDIA (R) Ptx optimizing assembler");
  on_mkstemp := λ template _,
    if starts_with (str "/tmp/triton_k_") template
    then str "a1B2c3" else str "d4E5f6";
  on_system := λ _ fs,
    (<[str "/tmp/triton_l_d4E5f6" := str "ptxas fatal   : Ptx assembly aborted due to errors"]> fs,
     65280);
  on_cuModuleLoad := λ fname fs,
    match fs !! fname with
    | Some _ => Ok 1
    | None => Throw (cuda_error (str "file_not_found"))
    end;
  on_cuModuleLoadDataEx := λ _, (Ok 1, [], [])
|}.

(** [ptxas] is installed and writes an object file, which the driver loads. *)
Definition ptxas_working : environment := {|
  on_exec := λ _, (0, str "ptxas: NVIDIA (R) Ptx optimizing assembler");
  on_mkstemp := λ template _,
    if starts_with (str "/tmp/triton_k_") template
    then str "a1B2c3" else str "d4E5f6";
  on_system := λ _ fs,
    (<[str "/tmp/triton_k_a1B2c3.o" := str "cubin"]> fs, 0);
  on_cuModuleLoad := λ fname fs,
    match fs !! fname with
    | Some _ => Ok 1
    | None => Throw (cuda_error (str "file_not_found"))
    end;
  on_cuModuleLoadDataEx := λ _, (Ok 1, [], [])
|}.

(** [ptxas] is not installed, and the driver's own compiler rejects the
    text, leaving its complaint in the error log buffer. *)
Definition jit_rejecting : environment := {|
  on_exec := λ _, (127, str "sh: 1: ptxas: not found");
  on_mkstemp := λ _ _, str "a1B2c3";
  on_system := λ _ fs, (fs, 0);
  on_cuModuleLoad := λ _ _, Throw (cuda_error (str "file_not_found"));
  on_cuModuleLoadDataEx := λ _,
    (Throw invalid_ptx,
     str "ptxas application ptx input, line 9; fatal   : Parsing error near '}'",
     [])
|}.

(** A world with no files, nothing printed and no call made. *)
Definition world_start : world :=
  {| files := ∅; cout := []; cerr := []; calls := [] |}.

(** The environment [env] with the value returned by [system] replaced by
    [status]; the files the shell leaves are those of [env]. *)
Definition with_exit_status (status : Z) (env : environment) : environment :=
  {| on_exec := on_exec env;
     on_mkstemp := on_mkstemp env;
     on_system := λ cmd fs, (fst (on_system env cmd fs), status);
     on_cuModuleLoad := on_cuModuleLoad env;
     on_cuModuleLoadDataEx := on_cuModuleLoadDataEx env |}.

(** A PTX text the assembler rejects. *)
Definition bad_ptx : text :=
  str ".version 7.3" ++ [LF] ++ str ".target sm_70" ++ [LF] ++ str "}" ++ [LF].

(* ================================================================== *)
(** * The version table of the specification *)

(** Written after the specification, not after the code: the table of
    thresholds, highest first, and the rule that the highest threshold not
    above the toolkit version decides. *)
Definition VersionMapping : list (Z * Z) :=
  [ (11030, 73); (11020, 72); (11010, 71); (11000, 70);
    (10020, 65); (10010, 64); (10000, 63) ].

Fixpoint resolve (table : list (Z * Z)) (version : Z) : option Z :=
  match table with
  | [] => None
  | (threshold, isa) :: table' =>
      if threshold <=? version then Some isa else resolve table' version
  end.

(* ================================================================== *)
(** * Texts made of lines *)

(** The text whose lines are [ls], each one followed by its line end. *)
Fixpoint unlines (ls : list text) : text :=
  match ls with
  | [] => []
  | l :: ls' => l ++ LF :: unlines ls'
  end.

(** The lines of [ls] that do not start with [marker]. *)
Definition without_lines_of (marker : text) (ls : list text) : list text :=
  filter (λ l, starts_with marker l = false) ls.

(* ================================================================== *)
(** * Properties of vptx *)

Ltac vptx_cases :=
  unfold vptx;
  repeat match goal with
         | |- context [?a >=? ?b] => destruct (Z.geb_spec a b); try lia
         end.

(** C1. On the seven thresholds 10000, 10010, 10020, 11000, 11010, 11020
    and 11030 [vptx] returns 63, 64, 65, 70, 71, 72 and 73; between two
    thresholds the highest one not above the version decides, so every
    version from 11030 on gives 73; below 10000 [vptx] throws instead of
    returning. *)
Theorem vptx_table :
  (vptx 10000 = Ok 63 ∧ vptx 10010 = Ok 64 ∧ vptx 10020 = Ok 65 ∧
   vptx 11000 = Ok 70 ∧ vptx 11010 = Ok 71 ∧ vptx 11020 = Ok 72 ∧
   vptx 11030 = Ok 73) ∧
  (∀ v, 10000 ≤ v < 10010 → vptx v = Ok 63) ∧
  (∀ v, 10010 ≤ v < 10020 → vptx v = Ok 64) ∧
  (∀ v, 10020 ≤ v < 11000 → vptx v = Ok 65) ∧
  (∀ v, 11000 ≤ v < 11010 → vptx v = Ok 70) ∧
  (∀ v, 11010 ≤ v < 11020 → vptx v = Ok 71) ∧
  (∀ v, 11020 ≤ v < 11030 → vptx v = Ok 72) ∧
  (∀ v, 11030 ≤ v → vptx v = Ok 73) ∧
  (∀ v, v < 10000 →
     vptx v = Throw (runtime_error (str "Triton requires CUDA 10+"))).
Proof.
  split; [repeat split; reflexivity|].
  repeat split; intros v Hv; vptx_cases; reflexivity.
Qed.

Lemma vptx_table_witness :
  vptx 11035 = Ok 73 ∧
  vptx 9050 = Throw (runtime_error (str "Triton requires CUDA 10+")).
Proof.
  destruct vptx_table as (_ & _ & _ & _ & _ & _ & _ & Hhi & Hlo).
  split; [apply (Hhi 11035); lia | apply (Hlo 9050); lia].
Defined.

(** C9. [vptx] is monotone where it returns: for toolkit versions
    [10000 <= v1 <= v2] both calls return, and the first result is at most
    the second. *)
Theorem vptx_monotone (v1 v2 : Z) :
  10000 ≤ v1 → v1 ≤ v2 →
  ∃ p1 p2, vptx v1 = Ok p1 ∧ vptx v2 = Ok p2 ∧ p1 ≤ p2.
Proof.
  intros H1 H2. vptx_cases; eexists _, _; (split; [reflexivity|]);
    (split; [reflexivity|]); lia.
Qed.

Lemma vptx_monotone_witness :
  ∃ p1 p2, vptx 10010 = Ok p1 ∧ vptx 11020 = Ok p2 ∧ p1 ≤ p2.
Proof. apply (vptx_monotone 10010 11020); lia. Defined.

(* ================================================================== *)
(** * Properties of init_llvm *)

Lemma init_llvm_sets_flag (s : llvm_state) : init (init_llvm s) = true.
Proof. unfold init_llvm. destruct (init s) eqn:E; simpl; auto. Qed.

Lemma init_llvm_guarded (s : llvm_state) : init s = true → init_llvm s = s.
Proof. unfold init_llvm. intros ->. reflexivity. Qed.

(** C8. Backend registration happens once per process.  A second call of
    [init_llvm] changes nothing; a call that finds the guard set changes
    nothing; and after any positive number of calls from a state whose
    guard is clear, the calls made are those made before and then, once
    each and in this order, [LLVMInitializeNVPTXTargetInfo],
    [LLVMInitializeNVPTXTarget], [LLVMInitializeNVPTXTargetMC] and
    [LLVMInitializeNVPTXAsmPrinter]. *)
Theorem init_llvm_once :
  (∀ s, init_llvm (init_llvm s) = init_llvm s) ∧
  (∀ s, init s = true → init_llvm s = s) ∧
  (∀ s n, init s = false →
     Nat.iter (S n) init_llvm s =
       {| init := true;
          registered :=
            registered s
              ++ [LLVMInitializeNVPTXTargetInfo; LLVMInitializeNVPTXTarget;
                  LLVMInitializeNVPTXTargetMC; LLVMInitializeNVPTXAsmPrinter];
          nvptx_short_ptr := nvptx_short_ptr s |}).
Proof.
  split; [|split].
  - intros s. apply init_llvm_guarded, init_llvm_sets_flag.
  - apply init_llvm_guarded.
  - intros s n Hs. induction n as [|n IH].
    + simpl. unfold init_llvm. rewrite Hs. reflexivity.
    + change (Nat.iter (S (S n)) init_llvm s)
        with (init_llvm (Nat.iter (S n) init_llvm s)).
      rewrite IH. reflexivity.
Qed.

Lemma init_llvm_once_witness :
  Nat.iter 3 init_llvm process_start =
    {| init := true;
       registered :=
         [LLVMInitializeNVPTXTargetInfo; LLVMInitializeNVPTXTarget;
          LLVMInitializeNVPTXTargetMC; LLVMInitializeNVPTXAsmPrinter];
       nvptx_short_ptr := false |}.
Proof.
  destruct init_llvm_once as (_ & _ & H).
  apply (H process_start 2%nat). reflexivity.
Defined.

(* ================================================================== *)
(** * Properties of find, replace and find_and_replace *)

Lemma size_app (a b : text) : size (a ++ b) = size a + size b.
Proof. unfold size. rewrite length_app. lia. Qed.

Lemma size_nonneg (a : text) : 0 ≤ size a.
Proof. unfold size. lia. Qed.

Lemma starts_with_app (pat s : text) : starts_with pat (pat ++ s) = true.
Proof.
  induction pat as [|p pat IH]; simpl; [reflexivity|].
  rewrite Ascii.eqb_refl. exact IH.
Qed.

Lemma starts_with_prefix (pat s : text) :
  starts_with pat s = true ↔ ∃ r, s = pat ++ r.
Proof.
  split.
  - revert s. induction pat as [|p pat IH]; intros s H; simpl in *.
    + by exists s.
    + destruct s as [|c s]; [discriminate|].
      destruct (Ascii.eqb_spec p c) as [->|]; [|discriminate].
      destruct (IH _ H) as [r ->]. by exists r.
  - intros [r ->]. apply starts_with_app.
Qed.

Lemma starts_with_cons_ne (c a : ascii) (pat s : text) :
  a ≠ c → starts_with (c :: pat) (a :: s) = false.
Proof.
  intros H. simpl. destruct (Ascii.eqb_spec c a); congruence.
Qed.

Lemma find_first_here (pat s : text) :
  starts_with pat s = true → find_first pat s = Some 0%nat.
Proof. intros H. destruct s; simpl; rewrite H; reflexivity. Qed.

Lemma find_first_cons_ne (c a : ascii) (pat s : text) :
  a ≠ c → find_first (c :: pat) (a :: s) = S <$> find_first (c :: pat) s.
Proof.
  intros H. cbn [find_first]. by rewrite starts_with_cons_ne.
Qed.

(** A pattern cannot start inside a text that lacks its first
    character. *)
Lemma find_first_notin (c : ascii) (pat s : text) :
  c ∉ s → find_first (c :: pat) s = None.
Proof.
  induction s as [|a s IH]; intros H; [reflexivity|].
  rewrite find_first_cons_ne by (intros ->; apply H; left).
  rewrite IH; [reflexivity|]. intros ?; apply H; by right.
Qed.

Lemma find_first_app_notin (c : ascii) (pat pre s : text) :
  c ∉ pre →
  find_first (c :: pat) (pre ++ s)
  = (λ k, length pre + k)%nat <$> find_first (c :: pat) s.
Proof.
  induction pre as [|a pre IH]; intros H; simpl app.
  - destruct (find_first _ s); reflexivity.
  - rewrite find_first_cons_ne by (intros ->; apply H; left).
    rewrite IH by (intros ?; apply H; by right).
    destruct (find_first _ s); reflexivity.
Qed.

(** The offset returned is a place where the pattern occurs. *)
Lemma find_first_Some (pat s : text) (k : nat) :
  find_first pat s = Some k →
  starts_with pat (drop k s) = true ∧ (k ≤ length s)%nat.
Proof.
  revert k. induction s as [|a s IH]; intros k; cbn [find_first].
  - destruct (starts_with pat []) eqn:E; [|discriminate].
    intros [= <-]. split; [exact E | simpl; lia].
  - destruct (starts_with pat (a :: s)) eqn:E.
    + intros [= <-]. split; [exact E | simpl; lia].
    + destruct (find_first pat s) as [j|] eqn:F; [|discriminate].
      intros [= <-]. destruct (IH j eq_refl) as [? ?].
      split; [assumption | simpl; lia].
Qed.

Lemma find_first_Some_cons (c : ascii) (pat s : text) (k : nat) :
  find_first (c :: pat) s = Some k → (k + S (length pat) ≤ length s)%nat.
Proof.
  intros H. apply find_first_Some in H as [H Hk].
  apply starts_with_prefix in H as [r Hr].
  assert (length (drop k s) = length (c :: pat ++ r)) as E by (by rewrite Hr).
  rewrite length_drop in E. simpl in E. rewrite length_app in E. lia.
Qed.

(** No earlier place has the pattern. *)
Lemma find_first_least (pat s : text) (k j : nat) :
  find_first pat s = Some k → (j < k)%nat → starts_with pat (drop j s) = false.
Proof.
  revert k j. induction s as [|a s IH]; intros k j; cbn [find_first].
  - destruct (starts_with pat []); [|discriminate]. intros [= <-]. lia.
  - destruct (starts_with pat (a :: s)) eqn:E.
    + intros [= <-]. lia.
    + destruct (find_first pat s) as [i|] eqn:F; [|discriminate].
      intros [= <-] Hj. destruct j as [|j]; [exact E|].
      simpl. apply (IH i); [reflexivity | lia].
Qed.

Lemma find_first_None (pat s : text) (j : nat) :
  find_first pat s = None → starts_with pat (drop j s) = false.
Proof.
  revert j. induction s as [|a s IH]; intros j; cbn [find_first].
  - destruct (starts_with pat []) eqn:E; [discriminate|].
    intros _. by rewrite drop_nil.
  - destruct (starts_with pat (a :: s)) eqn:E; [discriminate|].
    destruct (find_first pat s) eqn:F; [discriminate|]. intros _.
    destruct j as [|j]; [exact E | simpl; by apply IH].
Qed.

Lemma npos_val : npos = 18446744073709551615.
Proof. reflexivity. Qed.

Lemma find_0 (s pat : text) :
  size s < npos →
  find s pat 0 = match find_first pat s with
                 | Some k => Z.of_nat k
                 | None => npos
                 end.
Proof.
  intros Hs. unfold find.
  destruct (Z.ltb_spec (size s) 0) as [H|_]; [pose proof (size_nonneg s); lia|].
  change (drop (Z.to_nat 0) s) with s.
  destruct (find_first pat s); [lia | reflexivity].
Qed.

Lemma find_npos (s pat : text) : size s < npos → find s pat npos = npos.
Proof.
  intros Hs. unfold find.
  destruct (Z.ltb_spec (size s) npos); [reflexivity | lia].
Qed.

Lemma find_from (s pat : text) (st : nat) :
  (st ≤ length s)%nat →
  find s pat (Z.of_nat st)
  = match find_first pat (drop st s) with
    | Some k => Z.of_nat st + Z.of_nat k
    | None => npos
    end.
Proof.
  intros Hst. unfold find, size.
  destruct (Z.ltb_spec (Z.of_nat (length s)) (Z.of_nat st)); [lia|].
  by rewrite Nat2Z.id.
Qed.

Lemma find_and_replace_eq (s begin end_ target : text) :
  size s < npos →
  find_and_replace s begin end_ target
  = find_and_replace_cases s begin end_ target.
Proof.
  intros Hs. unfold find_and_replace, find_and_replace_cases.
  rewrite find_0 by assumption.
  destruct (find_first begin s) as [st|] eqn:Hb.
  2:{ rewrite Z.eqb_refl. reflexivity. }
  pose proof (find_first_Some _ _ _ Hb) as [_ Hst].
  pose proof Hs as Hs'. unfold size in Hs'. rewrite npos_val in *.
  destruct (Z.eqb_spec (Z.of_nat st) 18446744073709551615) as [E|_]; [lia|].
  rewrite find_from by assumption. unfold replace, size_t.
  destruct (find_first end_ (drop st s)) as [k|] eqn:He; rewrite ?npos_val.
  - pose proof (find_first_Some _ _ _ He) as [_ Hk].
    rewrite length_drop in Hk.
    replace (Z.of_nat st + Z.of_nat k + 1 - Z.of_nat st) with (Z.of_nat k + 1) by lia.
    rewrite Z.mod_small by lia. rewrite Nat2Z.id.
    do 3 f_equal. unfold size.
    destruct (Z.min_spec (Z.of_nat k + 1) (Z.of_nat (length s) - Z.of_nat st))
      as [[_ ->]|[Hm ->]].
    + f_equal. lia.
    + replace (Z.to_nat (Z.of_nat st + (Z.of_nat (length s) - Z.of_nat st)))
        with (length s) by lia.
      rewrite drop_all. symmetry. apply drop_ge. lia.
  - destruct st as [|st'].
    + change (Z.of_nat 0) with 0.
      change ((18446744073709551615 + 1 - 0) mod 2 ^ 64) with 0.
      rewrite Z.min_l by (unfold size; lia). reflexivity.
    + replace (18446744073709551615 + 1 - Z.of_nat (S st'))
        with (2 ^ 64 - Z.of_nat (S st')) by lia.
      rewrite Z.mod_small by lia. rewrite Nat2Z.id.
      rewrite Z.min_r by (unfold size; lia).
      replace (Z.to_nat (Z.of_nat (S st') + (size s - Z.of_nat (S st'))))
        with (length s) by (unfold size; lia).
      by rewrite drop_all, app_nil_r.
Qed.

(* ================================================================== *)
(** * Properties of the erasing loop *)

Lemma find_and_replace_absent (s begin end_ target : text) :
  size s < npos → find_first begin s = None →
  find_and_replace s begin end_ target = (s, false).
Proof.
  intros Hs Hb. rewrite find_and_replace_eq by assumption.
  unfold find_and_replace_cases. by rewrite Hb.
Qed.

(** With an empty target a call that finds its marker either shortens the
    text or leaves it as it was. *)
Lemma erase_step (s begin end_ : text) (st : nat) :
  find_first begin s = Some st →
  ∃ s', find_and_replace_cases s begin end_ [] = (s', true) ∧
        (s' = s ∨ (length s' < length s)%nat).
Proof.
  intros Hb. unfold find_and_replace_cases. rewrite Hb.
  pose proof (find_first_Some _ _ _ Hb) as [_ Hst].
  assert (take st s = s ∨ (length (take st s) < length s)%nat) as Htake.
  { destruct (decide (st = length s)) as [->|Hne].
    - left. by apply take_ge.
    - right. rewrite length_take. lia. }
  destruct (find_first end_ (drop st s)) as [k|].
  - eexists; split; [reflexivity|]. cbn [app].
    destruct (decide (st + k + 1 ≤ length s)%nat) as [Hle|Hgt].
    + right. rewrite length_app, length_take, length_drop. lia.
    + rewrite (drop_ge s) by lia. by rewrite app_nil_r.
  - destruct st as [|st'].
    + eexists; split; [reflexivity|]. by left.
    + eexists; split; [reflexivity|]. by rewrite app_nil_r.
Qed.

(** A call that reports a replacement and leaves the text as it was makes
    the loop run forever. *)
Lemma while_stuck (s begin end_ target : text) (fuel : nat) :
  find_and_replace s begin end_ target = (s, true) →
  while_find_and_replace fuel s begin end_ target = None.
Proof.
  intros H. induction fuel as [|fuel IH]; [reflexivity|].
  cbn [while_find_and_replace]. rewrite H. exact IH.
Qed.

Lemma while_absent (fuel : nat) (s begin end_ target : text) :
  size s < npos → find_first begin s = None →
  while_find_and_replace (S fuel) s begin end_ target = Some s.
Proof.
  intros Hs Hb. cbn [while_find_and_replace].
  by rewrite find_and_replace_absent.
Qed.

(** What the erasing loop leaves when it ends: the marker is gone, the text
    has not grown, and it is shorter if the marker was there. *)
Lemma while_erase_inv (fuel : nat) (s s' begin end_ : text) :
  size s < npos →
  while_find_and_replace fuel s begin end_ [] = Some s' →
  find_first begin s' = None ∧ (length s' ≤ length s)%nat ∧
  (is_Some (find_first begin s) → (length s' < length s)%nat).
Proof.
  revert s. induction fuel as [|fuel IH]; intros s Hs; [discriminate|].
  cbn [while_find_and_replace].
  destruct (find_first begin s) as [st|] eqn:Hb.
  - destruct (erase_step s begin end_ st Hb) as (s1 & Hstep & Hlen).
    rewrite find_and_replace_eq, Hstep by assumption. intros Hw.
    destruct Hlen as [->|Hlen].
    + rewrite while_stuck in Hw; [discriminate|].
      by rewrite find_and_replace_eq.
    + destruct (IH s1) as (H1 & H2 & _); [unfold size in *; lia | exact Hw |].
      split; [exact H1|]. split; [lia|]. intros _. lia.
  - rewrite find_and_replace_absent by assumption. intros [= <-].
    split; [exact Hb|]. split; [lia|]. intros [? [=]].
Qed.

(** The erasing loop never looks at a prefix that lacks the first character
    of the marker, and with such a prefix in front it ends. *)
Lemma while_erase_after_prefix (c : ascii) (pat pre : text) :
  c ∉ pre → pre ≠ [] →
  ∀ (fuel : nat) (body : text),
    size (pre ++ body) < npos → (length body < fuel)%nat →
    ∃ body', while_find_and_replace fuel (pre ++ body) (c :: pat) [LF] []
             = Some (pre ++ body') ∧ (length body' ≤ length body)%nat.
Proof.
  intros Hc Hpre. induction fuel as [|fuel IH]; intros body Hs Hfuel; [lia|].
  cbn [while_find_and_replace]. rewrite find_and_replace_eq by assumption.
  unfold find_and_replace_cases. rewrite find_first_app_notin by assumption.
  destruct (find_first (c :: pat) body) as [k|] eqn:Hb; cbn [fmap option_fmap option_map].
  2:{ exists body. split; [reflexivity | lia]. }
  pose proof (find_first_Some_cons _ _ _ _ Hb) as Hk.
  rewrite drop_app_add.
  assert (∀ body1, (length body1 < length body)%nat →
            ∃ body', while_find_and_replace fuel (pre ++ body1) (c :: pat) [LF] []
                     = Some (pre ++ body') ∧ (length body' ≤ length body)%nat)
    as Hnext.
  { intros body1 H1. destruct (IH body1) as (body' & Hw & Hl).
    - rewrite size_app in *. unfold size in *. lia.
    - lia.
    - exists body'. split; [exact Hw | lia]. }
  destruct (find_first [LF] (drop k body)) as [j|] eqn:He.
  - pose proof (find_first_Some_cons _ _ _ _ He) as Hj.
    rewrite length_drop in Hj. cbn [app].
    rewrite take_app_add.
    replace (length pre + k + j + 1)%nat with (length pre + (k + j + 1))%nat by lia.
    rewrite drop_app_add, <- app_assoc.
    apply Hnext. rewrite length_app, length_take, length_drop. simpl in Hj. lia.
  - destruct (length pre + k)%nat as [|n] eqn:En.
    + destruct pre; [done | simpl in En; lia].
    + rewrite <- En, take_app_add, app_nil_r.
      apply Hnext. rewrite length_take. lia.
Qed.

(** A second run of either loop on its own output changes nothing. *)
Lemma while_erase_idempotent (fuel : nat) (s s' begin end_ : text) :
  size s < npos →
  while_find_and_replace fuel s begin end_ [] = Some s' →
  while_find_and_replace fuel s' begin end_ [] = Some s'.
Proof.
  intros Hs Hw. destruct (while_erase_inv _ _ _ _ _ Hs Hw) as (Hb & Hl & _).
  destruct fuel as [|fuel]; [discriminate|].
  apply while_absent; [unfold size in *; lia | exact Hb].
Qed.

(* ================================================================== *)
(** * Properties of strip_inline_asm *)

(** C7, as stated, fails.  On [begin_around_end] the first pass finds no begin
    marker, deletes the end marker with its line end, and so leaves a begin
    marker behind; the second pass deletes that one. *)
Lemma strip_inline_asm_not_idempotent :
  strip_inline_asm 3 begin_around_end = Some (begin_inline_asm ++ [LF]) ∧
  strip_inline_asm 3 (begin_inline_asm ++ [LF]) = Some [] ∧
  strip_inline_asm 3 (begin_inline_asm ++ [LF]) ≠ Some (begin_inline_asm ++ [LF]).
Proof. repeat split; vm_compute; congruence. Qed.

(** C7, amended.  A rewrite whose marker is absent returns [false] and leaves
    the text as it was.  Each of the two loops, run again on its own output,
    changes nothing.  When the pass over [s] ends with [s'], no end marker
    occurs in [s']; a second pass returns [s'] unchanged if no begin marker
    occurs in [s'] either, and otherwise it does not, however long it runs.
    On a text whose first character is not a tab the pass ends, after at most
    as many rounds per loop as the text has characters. *)
Theorem strip_inline_asm_second_pass :
  (∀ s begin end_ target,
     size s < npos → find_first begin s = None →
     find_and_replace s begin end_ target = (s, false)) ∧
  (∀ fuel s s' marker,
     size s < npos →
     while_find_and_replace fuel s marker [LF] [] = Some s' →
     while_find_and_replace fuel s' marker [LF] [] = Some s') ∧
  (∀ fuel s s',
     size s < npos → strip_inline_asm fuel s = Some s' →
     find_first end_inline_asm s' = None ∧
     (find_first begin_inline_asm s' = None →
      ∀ fuel', strip_inline_asm (S fuel') s' = Some s') ∧
     (is_Some (find_first begin_inline_asm s') →
      ∀ fuel', strip_inline_asm fuel' s' ≠ Some s')) ∧
  (∀ a s,
     a ≠ TAB → size (a :: s) < npos →
     ∃ s', strip_inline_asm (S (length s)) (a :: s) = Some (a :: s')).
Proof.
  split; [exact find_and_replace_absent|].
  split; [intros fuel s s' marker; apply while_erase_idempotent|].
  split.
  - intros fuel s s' Hs. unfold strip_inline_asm.
    destruct (while_find_and_replace fuel s begin_inline_asm [LF] [])
      as [s1|] eqn:H1; [|discriminate].
    intros H2.
    destruct (while_erase_inv _ _ _ _ _ Hs H1) as (_ & Hl1 & _).
    assert (size s1 < npos) as Hs1 by (unfold size in *; lia).
    destruct (while_erase_inv _ _ _ _ _ Hs1 H2) as (He & Hl2 & _).
    assert (size s' < npos) as Hs' by (unfold size in *; lia).
    split; [exact He|]. split.
    + intros Hb fuel'. rewrite while_absent by assumption.
      by apply while_absent.
    + intros Hb fuel'.
      destruct (while_find_and_replace fuel' s' begin_inline_asm [LF] [])
        as [s2|] eqn:H3; [|discriminate].
      intros H4.
      destruct (while_erase_inv _ _ _ _ _ Hs' H3) as (_ & Hl3 & Hlt).
      assert (size s2 < npos) as Hs2 by (unfold size in *; lia).
      destruct (while_erase_inv _ _ _ _ _ Hs2 H4) as (_ & Hl4 & _).
      specialize (Hlt Hb). lia.
  - intros a s Ha Hs.
    assert (TAB ∉ [a]) as Hin by (rewrite list_elem_of_singleton; congruence).
    destruct (while_erase_after_prefix TAB (str "// begin inline asm") [a]
                Hin ltac:(done) (S (length s)) s Hs ltac:(lia))
      as (s1 & H1 & Hl1).
    destruct (while_erase_after_prefix TAB (str "// end inline asm") [a]
                Hin ltac:(done) (S (length s)) s1)
      as (s2 & H2 & Hl2).
    + unfold size in *. simpl in *. lia.
    + lia.
    + exists s2. unfold strip_inline_asm.
      change begin_inline_asm with (TAB :: str "// begin inline asm").
      change ([a] ++ s) with (a :: s) in H1. rewrite H1. exact H2.
Qed.

Lemma strip_inline_asm_second_pass_witness :
  let s := str "mov" ++ [LF] ++ begin_inline_asm ++ [LF] ++ TAB :: str "ld"
             ++ [LF] ++ end_inline_asm ++ [LF] in
  let s' := str "mov" ++ [LF] ++ TAB :: str "ld" ++ [LF] in
  strip_inline_asm 9 s = Some s' ∧ strip_inline_asm 9 s' = Some s'.
Proof.
  intros s s'.
  assert (strip_inline_asm 9 s = Some s') as H by (vm_compute; reflexivity).
  split; [exact H|].
  destruct strip_inline_asm_second_pass as (_ & _ & H3 & _).
  destruct (H3 9%nat s s' ltac:(vm_compute; reflexivity) H) as [_ [Hagain _]].
  apply (Hagain ltac:(vm_compute; reflexivity) 8%nat).
Defined.

(* ================================================================== *)
(** * Properties of to_string *)

(** Closed decidable facts, settled by evaluation. *)
Ltac by_evaluation :=
  cbv beta;
  lazymatch goal with
  | |- ¬ ?P =>
      let H := fresh in
      intros H; apply (bool_decide_pack P) in H; vm_compute in H; destruct H
  | |- ?P => apply (bool_decide_unpack P); vm_compute; exact I
  end.

Lemma string_of_uint_digits (d : Decimal.uint) :
  Forall (λ c, c ∈ str "0123456789") (str (NilEmpty.string_of_uint d)).
Proof.
  induction d; cbn [NilEmpty.string_of_uint str list_ascii_of_string];
    [apply Forall_nil_2 | apply Forall_cons_2; [|assumption] ..];
    by_evaluation.
Qed.

(** [to_string] writes a minus sign and digits, nothing else. *)
Lemma to_string_chars (n : Z) :
  Forall (λ c, c ∈ str "-0123456789") (to_string n).
Proof.
  assert (∀ d, Forall (λ c, c ∈ str "-0123456789")
                 (str (NilZero.string_of_uint d))) as Hu.
  { intros d.
    assert (Forall (λ c, c ∈ str "-0123456789")
              (str (NilEmpty.string_of_uint d))) as H.
    { eapply Forall_impl; [apply string_of_uint_digits|].
      intros c Hc. by right. }
    destruct d; try exact H.
    apply Forall_cons_2; [by_evaluation | apply Forall_nil_2]. }
  unfold to_string.
  destruct (Z.to_int n) as [d|d]; cbn [NilZero.string_of_int].
  - apply Hu.
  - cbn [str list_ascii_of_string]. constructor; [by left | apply Hu].
Qed.

Lemma to_string_no_TAB (n : Z) : TAB ∉ to_string n.
Proof.
  intros H. pose proof (to_string_chars n) as Hall.
  rewrite Forall_forall in Hall. apply Hall in H.
  revert H. by_evaluation.
Qed.

(* ================================================================== *)
(** * Properties of llir_to_ptx *)

(** Replacing a directive line: the marker is first found after [pre], the
    rest of its line is [v]. *)
Lemma find_and_replace_line (pre pat v rest target : text) :
  size (pre ++ pat ++ v ++ [LF] ++ rest) < npos →
  find_first pat (pre ++ pat ++ v ++ [LF] ++ rest) = Some (length pre) →
  LF ∉ pat ++ v →
  find_and_replace (pre ++ pat ++ v ++ [LF] ++ rest) pat [LF] target
  = (pre ++ target ++ rest, true).
Proof.
  intros Hs Hb Hlf. rewrite find_and_replace_eq by assumption.
  unfold find_and_replace_cases. rewrite Hb, drop_app_length.
  rewrite (app_assoc pat v), (find_first_app_notin LF [] (pat ++ v)) by assumption.
  rewrite (find_first_here [LF] ([LF] ++ rest)) by reflexivity.
  cbn [fmap option_fmap option_map].
  rewrite take_app_length. do 3 f_equal.
  rewrite <- (app_assoc pat v).
  replace (length pre + (length (pat ++ v) + 0) + 1)%nat
    with (length pre + (length pat + (length v + 1)))%nat
    by (rewrite length_app; lia).
  rewrite drop_app_add, drop_app_add.
  change ([LF] ++ rest) with (LF :: rest).
  replace (length v + 1)%nat with (length v + 1 + 0)%nat by lia.
  rewrite <- Nat.add_assoc.
  rewrite drop_app_add. reflexivity.
Qed.

Lemma vptx_Ok (version ptx : Z) :
  vptx version = Ok ptx → ptx ∈ [63; 64; 65; 70; 71; 72; 73].
Proof.
  unfold vptx.
  repeat match goal with
         | |- context [?a >=? ?b] => destruct (a >=? b)
         end; intros [= <-]; by_evaluation.
Qed.

(** No [.target] starts inside the [.version] line that [llir_to_ptx]
    writes. *)
Lemma find_first_target_after_version (ptx : Z) (rest : text) :
  ptx ∈ [63; 64; 65; 70; 71; 72; 73] →
  find_first (str ".target") (version_directive ptx ++ str ".target" ++ rest)
  = Some 13%nat ∧
  length (version_directive ptx) = 13%nat ∧
  (LF ∉ str ".version " ++ to_string (Z.quot ptx 10) ++ str "."
          ++ to_string (Z.rem ptx 10)) ∧
  (TAB ∉ version_directive ptx).
Proof.
  intros H. repeat (apply elem_of_cons in H as [->|H]);
    [.. | by apply elem_of_nil in H];
    (split; [vm_compute; reflexivity|]); (split; [reflexivity|]);
    split; by_evaluation.
Qed.

(** More fuel does not change the value of a loop that has ended. *)
Lemma while_fuel_mono (fuel fuel' : nat) (s begin end_ target r : text) :
  while_find_and_replace fuel s begin end_ target = Some r →
  (fuel ≤ fuel')%nat →
  while_find_and_replace fuel' s begin end_ target = Some r.
Proof.
  revert fuel' s. induction fuel as [|fuel IH]; intros fuel' s; [discriminate|].
  intros H Hle. destruct fuel' as [|fuel']; [lia|].
  cbn [while_find_and_replace] in *.
  destruct (find_and_replace s begin end_ target) as [s1 [|]]; [|exact H].
  apply (IH fuel' s1); [exact H | lia].
Qed.

Lemma target_directive_eq (cc : Z) :
  str ".target " ++ (str "sm_" ++ to_string cc) ++ [LF] = target_directive cc.
Proof. reflexivity. Qed.

Lemma target_directive_no_TAB (cc : Z) : TAB ∉ target_directive cc.
Proof.
  unfold target_directive. rewrite !not_elem_of_app.
  split; [by_evaluation|]. split; [apply to_string_no_TAB | by_evaluation].
Qed.

Ltac size_bound :=
  unfold size in *; rewrite ?length_app in *;
  cbn [length str list_ascii_of_string] in *; lia.

Section CodeGeneratorProperties.

Context {llvm_module : Type}.
Context (emit_assembly : llvm_module → text → text → text → text).

(** When LLVM's text starts with a preamble free of dots and tabs, then a
    [.version] line and a [.target] line, [llir_to_ptx] returns that text
    with the two lines rewritten and some of what follows them erased. *)
Lemma llir_to_ptx_header (s : llvm_state) (module : llvm_module)
    (cc version ptx : Z) (pre v t body : text) :
  vptx version = Ok ptx →
  emit_assembly module (str "nvptx64-nvidia-cuda")
    (str "sm_" ++ to_string (Z.min cc 75))
    (str "+ptx" ++ to_string (Z.min ptx 64))
  = pre ++ str ".version" ++ v ++ [LF] ++ str ".target" ++ t ++ [LF] ++ body →
  "."%char ∉ pre → TAB ∉ pre → LF ∉ v → LF ∉ t →
  size pre + size v + size t + size body + size (to_string cc) + 64 < npos →
  ∃ body', (length body' ≤ length body)%nat ∧
    ∀ fuel, (length body < fuel)%nat →
      llir_to_ptx llvm_module emit_assembly fuel s module cc version
      = Some (init_llvm {| init := init s; registered := registered s;
                           nvptx_short_ptr := true |},
              Ok (pre ++ version_directive ptx ++ target_directive cc
                    ++ body')).
Proof.
  intros Hv Hemit Hdot Htab Hvlf Htlf Hsize.
  pose proof (vptx_Ok _ _ Hv) as Hptx.
  destruct (find_first_target_after_version ptx (t ++ [LF] ++ body) Hptx)
    as (Hfind & Hlen & Hlf & Htabv).
  rewrite npos_val in Hsize.
  (* line 140 *)
  assert (find_and_replace
            (pre ++ str ".version" ++ v ++ [LF] ++ str ".target" ++ t
               ++ [LF] ++ body) (str ".version") [LF] (version_directive ptx)
          = (pre ++ version_directive ptx ++ str ".target" ++ t ++ [LF]
               ++ body, true)) as H140.
  { apply find_and_replace_line.
    - rewrite npos_val. size_bound.
    - change (str ".version") with ("."%char :: str "version").
      rewrite find_first_app_notin by assumption.
      rewrite find_first_here by apply (starts_with_app (_ :: _)).
      cbn [fmap option_fmap option_map]. f_equal. lia.
    - rewrite not_elem_of_app. split; [by_evaluation | assumption]. }
  (* line 141 *)
  assert (find_and_replace
            (pre ++ version_directive ptx ++ str ".target" ++ t ++ [LF]
               ++ body) (str ".target") [LF] (target_directive cc)
          = (pre ++ version_directive ptx ++ target_directive cc ++ body,
             true)) as H141.
  { rewrite (app_assoc pre (version_directive ptx)).
    rewrite find_and_replace_line.
    - by rewrite <- app_assoc.
    - rewrite npos_val. size_bound.
    - rewrite <- app_assoc.
      change (str ".target") with ("."%char :: str "target") at 1.
      rewrite find_first_app_notin by assumption.
      change ("."%char :: str "target") with (str ".target").
      rewrite Hfind. cbn [fmap option_fmap option_map].
      f_equal. rewrite length_app. lia.
    - rewrite not_elem_of_app. split; [by_evaluation | assumption]. }
  (* lines 142 and 143 *)
  set (header := pre ++ version_directive ptx ++ target_directive cc).
  assert (TAB ∉ header) as Hh.
  { unfold header. rewrite !not_elem_of_app.
    split; [assumption|]. split; [assumption | apply target_directive_no_TAB]. }
  assert (header ≠ []) as Hne.
  { unfold header. destruct pre; [|done].
    intros E. apply (f_equal length) in E. rewrite !length_app, Hlen in E.
    simpl in E. lia. }
  assert (size header + size body < 18446744073709551615) as Hhs.
  { unfold header, target_directive. size_bound. }
  destruct (while_erase_after_prefix TAB (str "// begin inline asm") header
              Hh Hne (S (length body)) body) as (body1 & H142 & Hl1).
  { rewrite npos_val, size_app. lia. } { lia. }
  destruct (while_erase_after_prefix TAB (str "// end inline asm") header
              Hh Hne (S (length body)) body1) as (body2 & H143 & Hl2).
  { rewrite npos_val, size_app. unfold size in *. lia. } { lia. }
  exists body2. split; [lia|]. intros fuel Hfuel.
  unfold llir_to_ptx. rewrite Hv. cbv zeta. rewrite Hemit.
  rewrite target_directive_eq.
  change (str ".version " ++ to_string (Z.quot ptx 10) ++ str "."
            ++ to_string (Z.rem ptx 10) ++ [LF])
    with (version_directive ptx).
  rewrite H140. cbn [fst]. rewrite H141. cbn [fst].
  rewrite !app_assoc. rewrite <- (app_assoc pre). fold header.
  unfold strip_inline_asm.
  change begin_inline_asm with (TAB :: str "// begin inline asm").
  change end_inline_asm with (TAB :: str "// end inline asm").
  rewrite (while_fuel_mono _ fuel _ _ _ _ _ H142) by lia.
  rewrite (while_fuel_mono _ fuel _ _ _ _ _ H143) by lia.
  reflexivity.
Qed.

End CodeGeneratorProperties.

(** What a call does to the process state: the option is set, the backend
    is registered by the first call that gets past [vptx] and by no later
    one, and a call that throws has registered nothing. *)
Lemma llir_to_ptx_state {llvm_module : Type}
    (emit_assembly : llvm_module → text → text → text → text)
    (fuel : nat) (s s' : llvm_state) (module : llvm_module) (cc version : Z)
    (r : result text) :
  llir_to_ptx llvm_module emit_assembly fuel s module cc version
  = Some (s', r) →
  nvptx_short_ptr s' = true ∧
  (init s = true → init s' = true ∧ registered s' = registered s) ∧
  (∀ out, init s = false → r = Ok out →
     init s' = true ∧ registered s' = registered s ++ backend_registration) ∧
  (∀ e, r = Throw e → init s' = init s ∧ registered s' = registered s).
Proof.
  unfold llir_to_ptx. destruct (vptx version) as [ptx|e].
  - cbv zeta. destruct (strip_inline_asm _ _) as [out|]; [|discriminate].
    intros [= <- <-]. unfold init_llvm. cbn [init registered nvptx_short_ptr].
    destruct (init s); cbn [negb init registered nvptx_short_ptr];
      repeat split; try done.
  - intros [= <- <-]. cbn [init registered nvptx_short_ptr].
    repeat split; try done.
Qed.

(** C2. Whatever processor LLVM was given (it gets [sm_] with the smaller of
    [cc] and 75), the text returned has [.target sm_<cc>] with the requested
    [cc] as its first [.target] line.  LLVM's text is taken to begin as the
    NVPTX printer begins it: a preamble without dots and tabs, a [.version]
    line, a [.target] line.  The loops end within [length body + 1] rounds. *)
Theorem llir_to_ptx_target_directive {llvm_module : Type}
    (emit_assembly : llvm_module → text → text → text → text)
    (s : llvm_state) (module : llvm_module)
    (cc version ptx : Z) (pre v t body : text) :
  vptx version = Ok ptx →
  emit_assembly module (str "nvptx64-nvidia-cuda")
    (str "sm_" ++ to_string (Z.min cc 75))
    (str "+ptx" ++ to_string (Z.min ptx 64))
  = pre ++ str ".version" ++ v ++ [LF] ++ str ".target" ++ t ++ [LF] ++ body →
  "."%char ∉ pre → TAB ∉ pre → LF ∉ v → LF ∉ t →
  size pre + size v + size t + size body + size (to_string cc) + 64 < npos →
  ∃ (s' : llvm_state) (result before after : text),
    (∀ fuel, (length body < fuel)%nat →
       llir_to_ptx llvm_module emit_assembly fuel s module cc version
       = Some (s', Ok result)) ∧
    result = before ++ str ".target sm_" ++ to_string cc ++ [LF] ++ after ∧
    find_first (str ".target") result = Some (length before).
Proof.
  intros Hv Hemit Hdot Htab Hvlf Htlf Hsize.
  destruct (llir_to_ptx_header emit_assembly s module cc version ptx pre v t
              body Hv Hemit Hdot Htab Hvlf Htlf Hsize) as (body' & _ & Hrun).
  pose proof (vptx_Ok _ _ Hv) as Hptx.
  destruct (find_first_target_after_version ptx
              (str " sm_" ++ to_string cc ++ [LF] ++ body') Hptx)
    as (Hfind & Hlen & _ & _).
  eexists _, _, (pre ++ version_directive ptx), body'.
  split; [exact Hrun|]. split.
  - unfold target_directive. rewrite <- !app_assoc. reflexivity.
  - unfold target_directive. rewrite <- !app_assoc.
    change (str ".target sm_" ++ to_string cc ++ [LF] ++ body')
      with (str ".target" ++ str " sm_" ++ to_string cc ++ [LF] ++ body').
    change (str ".target") with ("."%char :: str "target") at 1.
    rewrite find_first_app_notin by assumption.
    change ("."%char :: str "target") with (str ".target").
    rewrite Hfind. cbn [fmap option_fmap option_map].
    f_equal. rewrite length_app. lia.
Qed.

(** C3. Whatever instruction set LLVM was given (it gets [+ptx] with the
    smaller of the resolved version and 64), the text returned has
    [.version <major>.<minor>] as its first [.version] line, with
    [major = ptx / 10] and [minor = ptx % 10] for the value [ptx] that [vptx]
    returned.  LLVM's text is taken to begin as the NVPTX printer begins it. *)
Theorem llir_to_ptx_version_directive {llvm_module : Type}
    (emit_assembly : llvm_module → text → text → text → text)
    (s : llvm_state) (module : llvm_module)
    (cc version ptx : Z) (pre v t body : text) :
  vptx version = Ok ptx →
  emit_assembly module (str "nvptx64-nvidia-cuda")
    (str "sm_" ++ to_string (Z.min cc 75))
    (str "+ptx" ++ to_string (Z.min ptx 64))
  = pre ++ str ".version" ++ v ++ [LF] ++ str ".target" ++ t ++ [LF] ++ body →
  "."%char ∉ pre → TAB ∉ pre → LF ∉ v → LF ∉ t →
  size pre + size v + size t + size body + size (to_string cc) + 64 < npos →
  ∃ (s' : llvm_state) (result after : text),
    (∀ fuel, (length body < fuel)%nat →
       llir_to_ptx llvm_module emit_assembly fuel s module cc version
       = Some (s', Ok result)) ∧
    result = pre ++ str ".version " ++ to_string (Z.quot ptx 10) ++ str "."
               ++ to_string (Z.rem ptx 10) ++ [LF] ++ after ∧
    find_first (str ".version") result = Some (length pre).
Proof.
  intros Hv Hemit Hdot Htab Hvlf Htlf Hsize.
  destruct (llir_to_ptx_header emit_assembly s module cc version ptx pre v t
              body Hv Hemit Hdot Htab Hvlf Htlf Hsize) as (body' & _ & Hrun).
  eexists _, _, (target_directive cc ++ body').
  split; [exact Hrun|]. split.
  - unfold version_directive. rewrite <- !app_assoc. reflexivity.
  - change (str ".version") with ("."%char :: str "version").
    rewrite find_first_app_notin by assumption.
    rewrite find_first_here.
    + cbn [fmap option_fmap option_map]. f_equal. lia.
    + apply (starts_with_app ("."%char :: str "version")).
Qed.

(** Capability 86 and toolkit 11.3: LLVM is asked for [sm_75] and [+ptx64]
    and prints [.version 6.4] and [.target sm_75]; the text returned says
    [.version 7.3] and [.target sm_86], and the two comments are gone. *)
Example llir_to_ptx_sm_86 :
  llir_to_ptx unit nvptx_printer 50 process_start tt 86 11030
  = Some ({| init := true; registered := backend_registration;
             nvptx_short_ptr := true |},
          Ok (nvptx_preamble ++ str ".version 7.3" ++ [LF]
                ++ str ".target sm_86" ++ [LF]
                ++ str ".address_size 64" ++ [LF] ++ [LF]
                ++ TAB :: str "mov.u32 %r1, %tid.x;" ++ [LF])).
Proof. vm_compute. reflexivity. Qed.

(** Capability 70 and toolkit 11.3 give [.version 7.3] and [.target sm_70]. *)
Example llir_to_ptx_sm_70 :
  llir_to_ptx unit nvptx_printer 50 process_start tt 70 11030
  = Some ({| init := true; registered := backend_registration;
             nvptx_short_ptr := true |},
          Ok (nvptx_preamble ++ str ".version 7.3" ++ [LF]
                ++ str ".target sm_70" ++ [LF]
                ++ str ".address_size 64" ++ [LF] ++ [LF]
                ++ TAB :: str "mov.u32 %r1, %tid.x;" ++ [LF])).
Proof. vm_compute. reflexivity. Qed.

(** Toolkit 9.5: [vptx] throws before LLVM is initialised. *)
Example llir_to_ptx_toolkit_9050 :
  llir_to_ptx unit nvptx_printer 50 process_start tt 70 9050
  = Some ({| init := false; registered := []; nvptx_short_ptr := true |},
          Throw (runtime_error (str "Triton requires CUDA 10+"))).
Proof. reflexivity. Qed.

Lemma llir_to_ptx_target_directive_witness :
  ∃ (s' : llvm_state) (result before after : text),
    (∀ fuel, (length nvptx_body < fuel)%nat →
       llir_to_ptx unit nvptx_printer fuel process_start tt 86 11030
       = Some (s', Ok result)) ∧
    result = before ++ str ".target sm_" ++ to_string 86 ++ [LF] ++ after ∧
    find_first (str ".target") result = Some (length before).
Proof.
  apply (llir_to_ptx_target_directive nvptx_printer process_start tt
           86 11030 73 nvptx_preamble (str " 6.4") (str " sm_75") nvptx_body);
    [reflexivity | reflexivity | by_evaluation | by_evaluation
    | by_evaluation | by_evaluation | vm_compute; reflexivity].
Defined.

Lemma llir_to_ptx_version_directive_witness :
  ∃ (s' : llvm_state) (result after : text),
    (∀ fuel, (length nvptx_body < fuel)%nat →
       llir_to_ptx unit nvptx_printer fuel process_start tt 70 11030
       = Some (s', Ok result)) ∧
    result = nvptx_preamble ++ str ".version " ++ to_string (Z.quot 73 10)
               ++ str "." ++ to_string (Z.rem 73 10) ++ [LF] ++ after ∧
    find_first (str ".version") result = Some (length nvptx_preamble).
Proof.
  apply (llir_to_ptx_version_directive nvptx_printer process_start tt
           70 11030 73 nvptx_preamble (str " 6.4") (str " sm_70") nvptx_body);
    [reflexivity | reflexivity | by_evaluation | by_evaluation
    | by_evaluation | by_evaluation | vm_compute; reflexivity].
Defined.

(* ================================================================== *)
(** * Properties of ptx_to_cumodule *)

(** The external assembler's branch, spelled out: every call up to the load
    is made whatever [system] returned; the two [unlink] calls are made only
    when the load returns. *)
Lemma ptx_to_cumodule_try_ptxas (env : environment) (ptx : text) (cc : Z)
    (w : world) :
  use_system_ptxas env = true →
  ptx_to_cumodule_try env ptx cc w
  = let before_load :=
      calls w ++ [call_exec ptxas_probe; call_mkstemp (fsrc_name env w);
                  call_mkstemp (flog_name env w);
                  call_system (ptxas_cmd env cc w);
                  call_cuModuleLoad (object_name env w)] in
    match on_cuModuleLoad env (object_name env w)
            (fst (assembled env ptx cc w)) with
    | Ok m =>
        ({| files := delete (flog_name env w)
                       (delete (fsrc_name env w) (fst (assembled env ptx cc w)));
            cout := cout w; cerr := cerr w;
            calls := before_load ++ [call_unlink (fsrc_name env w);
                                     call_unlink (flog_name env w)] |},
         Ok m)
    | Throw e =>
        ({| files := fst (assembled env ptx cc w);
            cout := cout w; cerr := cerr w; calls := before_load |},
         Throw e)
    end.
Proof.
  unfold use_system_ptxas, ptxas_probe. intros Hprobe.
  unfold ptx_to_cumodule_try, bind, exec. cbn [fst snd].
  rewrite Hprobe.
  unfold mkstemp, ofstream, system, cuModuleLoad, unlink, ret, record_call,
    set_files. cbn [files cout cerr calls fst snd].
  change (take (length (str "/tmp/triton_k_XXXXXX") - 6)
            (str "/tmp/triton_k_XXXXXX")) with (str "/tmp/triton_k_").
  change (take (length (str "/tmp/triton_l_XXXXXX") - 6)
            (str "/tmp/triton_l_XXXXXX")) with (str "/tmp/triton_l_").
  fold (fsrc_name env w). fold (flog_name env w).
  fold (files_before_ptxas env ptx w). fold (ptxas_cmd env cc w).
  unfold assembled, object_name.
  destruct (on_system env (ptxas_cmd env cc w) (files_before_ptxas env ptx w))
    as [fs status]. cbn [files cout cerr calls fst snd].
  destruct (on_cuModuleLoad env (fsrc_name env w ++ str ".o") fs) as [m|e];
    cbn [files cout cerr calls]; rewrite <- ?app_assoc; reflexivity.
Qed.

(** The driver's branch, spelled out. *)
Lemma ptx_to_cumodule_try_jit (env : environment) (ptx : text) (cc : Z)
    (w : world) :
  use_system_ptxas env = false →
  ptx_to_cumodule_try env ptx cc w
  = ({| files := files w; cout := cout w; cerr := cerr w;
        calls := calls w ++ [call_exec ptxas_probe;
                             call_cuModuleLoadDataEx ptx] |},
     fst (fst (on_cuModuleLoadDataEx env ptx))).
Proof.
  unfold use_system_ptxas, ptxas_probe. intros Hprobe.
  unfold ptx_to_cumodule_try, bind, exec. cbn [fst snd].
  rewrite Hprobe.
  unfold cuModuleLoadDataEx, ret, record_call.
  cbn [files cout cerr calls fst snd].
  destruct (on_cuModuleLoadDataEx env ptx) as [[[m|e] err] log];
    cbn [files cout cerr calls fst snd]; rewrite <- ?app_assoc; reflexivity.
Qed.

(** The handler prints for [invalid_ptx] and throws again what was thrown. *)
Lemma ptx_to_cumodule_catch (env : environment) (ptx : text) (cc : Z)
    (w : world) :
  ptx_to_cumodule env ptx cc w
  = match ptx_to_cumodule_try env ptx cc w with
    | (w', Throw invalid_ptx) =>
        ({| files := files w'; cout := cout w' ++ ptx ++ [LF];
            cerr := cerr w' ++ invalid_ptx_message ++ [LF];
            calls := calls w' |}, Throw invalid_ptx)
    | r => r
    end.
Proof.
  unfold ptx_to_cumodule, try_catch.
  destruct (ptx_to_cumodule_try env ptx cc w) as [w' [m|[]]]; reflexivity.
Qed.

(** What [ptx_to_cumodule] returns or throws is what the driver's load
    returned or threw. *)
Lemma ptx_to_cumodule_answer (env : environment) (ptx : text) (cc : Z)
    (w : world) :
  snd (ptx_to_cumodule env ptx cc w) = driver_answer env ptx cc w.
Proof.
  rewrite ptx_to_cumodule_catch. unfold driver_answer.
  destruct (use_system_ptxas env) eqn:Hprobe.
  - rewrite ptx_to_cumodule_try_ptxas by assumption. cbv zeta.
    destruct (on_cuModuleLoad _ _ _) as [m|[]]; reflexivity.
  - rewrite ptx_to_cumodule_try_jit by assumption.
    destruct (fst (fst (on_cuModuleLoadDataEx env ptx))) as [m|[]]; reflexivity.
Qed.

(** The files and the calls are those of the [try] block: the handler only
    prints. *)
Lemma ptx_to_cumodule_files_calls (env : environment) (ptx : text) (cc : Z)
    (w : world) :
  files (fst (ptx_to_cumodule env ptx cc w))
  = files (fst (ptx_to_cumodule_try env ptx cc w)) ∧
  calls (fst (ptx_to_cumodule env ptx cc w))
  = calls (fst (ptx_to_cumodule_try env ptx cc w)).
Proof.
  rewrite ptx_to_cumodule_catch.
  destruct (ptx_to_cumodule_try env ptx cc w) as [w' [m|[]]]; by split.
Qed.

Lemma fsrc_name_not_object (env : environment) (w : world) :
  object_name env w ≠ fsrc_name env w.
Proof.
  unfold object_name. intros E. apply (f_equal length) in E.
  rewrite length_app in E. simpl in E. lia.
Qed.

Lemma flog_name_not_object (env : environment) (w : world) :
  object_name env w ≠ flog_name env w.
Proof.
  unfold object_name, fsrc_name, flog_name. intros E.
  apply (f_equal (take 14)) in E. cbn in E. discriminate.
Qed.

Lemma flog_name_not_fsrc (env : environment) (w : world) :
  fsrc_name env w ≠ flog_name env w.
Proof.
  unfold fsrc_name, flog_name. intros E.
  apply (f_equal (take 14)) in E. cbn in E. discriminate.
Qed.

(** Where the load returns, both temporaries are gone. *)
Lemma temporaries_unlinked_on_return (env : environment) (ptx : text) (cc : Z)
    (w : world) (m : CUmodule) :
  use_system_ptxas env = true →
  driver_answer env ptx cc w = Ok m →
  files (fst (ptx_to_cumodule env ptx cc w)) !! fsrc_name env w = None ∧
  files (fst (ptx_to_cumodule env ptx cc w)) !! flog_name env w = None.
Proof.
  intros Hprobe Hanswer. unfold driver_answer in Hanswer.
  rewrite Hprobe in Hanswer.
  destruct (ptx_to_cumodule_files_calls env ptx cc w) as [-> _].
  rewrite ptx_to_cumodule_try_ptxas by assumption. cbv zeta.
  rewrite Hanswer. cbn [fst files]. split.
  - rewrite lookup_delete_ne
      by (intros E; symmetry in E; revert E; apply flog_name_not_fsrc).
    apply lookup_delete_eq.
  - apply lookup_delete_eq.
Qed.

(** Where the load throws, no file is removed: the files are as the shell
    left them. *)
Lemma nothing_unlinked_on_throw (env : environment) (ptx : text) (cc : Z)
    (w : world) (e : exception) :
  use_system_ptxas env = true →
  driver_answer env ptx cc w = Throw e →
  files (fst (ptx_to_cumodule env ptx cc w)) = fst (assembled env ptx cc w).
Proof.
  intros Hprobe Hanswer. unfold driver_answer in Hanswer.
  rewrite Hprobe in Hanswer.
  destruct (ptx_to_cumodule_files_calls env ptx cc w) as [-> _].
  rewrite ptx_to_cumodule_try_ptxas by assumption. cbv zeta.
  by rewrite Hanswer.
Qed.

(** C4 fails on the code.  [ptxas] rejects the text and writes no object
    file, the load throws, and the two [unlink] calls of lines 173 and 174 are
    skipped: both temporaries are still there when the exception leaves
    [ptx_to_cumodule]. *)
Theorem temporaries_left_when_load_throws :
  let r := ptx_to_cumodule ptxas_failing bad_ptx 70 world_start in
  snd r = Throw (cuda_error (str "file_not_found")) ∧
  files (fst r) !! str "/tmp/triton_k_a1B2c3" = Some bad_ptx ∧
  files (fst r) !! str "/tmp/triton_l_d4E5f6"
  = Some (str "ptxas fatal   : Ptx assembly aborted due to errors") ∧
  calls (fst r)
  = [call_exec (str "ptxas --version 2>&1");
     call_mkstemp (str "/tmp/triton_k_a1B2c3");
     call_mkstemp (str "/tmp/triton_l_d4E5f6");
     call_system (str "ptxas -v --gpu-name=sm_70 /tmp/triton_k_a1B2c3 -o /tmp/triton_k_a1B2c3.o 2> /tmp/triton_l_d4E5f6");
     call_cuModuleLoad (str "/tmp/triton_k_a1B2c3.o")].
Proof. repeat split; vm_compute; reflexivity. Qed.

(** With a working assembler the same call returns and removes them. *)
Example temporaries_removed_when_load_returns :
  let r := ptx_to_cumodule ptxas_working bad_ptx 70 world_start in
  snd r = Ok 1 ∧
  files (fst r) !! str "/tmp/triton_k_a1B2c3" = None ∧
  files (fst r) !! str "/tmp/triton_l_d4E5f6" = None ∧
  files (fst r) !! str "/tmp/triton_k_a1B2c3.o" = Some (str "cubin").
Proof. repeat split; vm_compute; reflexivity. Qed.

(** C5. With the external assembler chosen, [system] is followed by the load
    of [fsrc + ".o"] whatever [system] returned: the calls up to the load are
    always made, what [ptx_to_cumodule] returns or throws is what the load
    returned or threw on the files the shell left, and replacing the exit
    status by any other value changes neither the final world nor the
    result. *)
Theorem load_follows_ptxas_whatever_status (env : environment) (ptx : text)
    (cc : Z) (w : world) :
  use_system_ptxas env = true →
  (∃ rest,
     calls (fst (ptx_to_cumodule env ptx cc w))
     = calls w ++ [call_exec ptxas_probe; call_mkstemp (fsrc_name env w);
                   call_mkstemp (flog_name env w);
                   call_system (ptxas_cmd env cc w);
                   call_cuModuleLoad (object_name env w)] ++ rest) ∧
  snd (ptx_to_cumodule env ptx cc w)
  = on_cuModuleLoad env (object_name env w) (fst (assembled env ptx cc w)) ∧
  (∀ status,
     ptx_to_cumodule (with_exit_status status env) ptx cc w
     = ptx_to_cumodule env ptx cc w).
Proof.
  intros Hprobe. split; [|split].
  - destruct (ptx_to_cumodule_files_calls env ptx cc w) as [_ ->].
    rewrite ptx_to_cumodule_try_ptxas by assumption. cbv zeta.
    destruct (on_cuModuleLoad _ _ _) as [m|e]; cbn [fst calls].
    + eexists. rewrite <- app_assoc. reflexivity.
    + exists []. by rewrite app_nil_r.
  - rewrite ptx_to_cumodule_answer. unfold driver_answer. by rewrite Hprobe.
  - intros status. rewrite !ptx_to_cumodule_catch.
    rewrite !ptx_to_cumodule_try_ptxas by assumption.
    reflexivity.
Qed.

Lemma load_follows_ptxas_whatever_status_witness :
  (∃ rest,
     calls (fst (ptx_to_cumodule ptxas_failing bad_ptx 70 world_start))
     = calls world_start
         ++ [call_exec ptxas_probe;
             call_mkstemp (fsrc_name ptxas_failing world_start);
             call_mkstemp (flog_name ptxas_failing world_start);
             call_system (ptxas_cmd ptxas_failing 70 world_start);
             call_cuModuleLoad (object_name ptxas_failing world_start)]
         ++ rest) ∧
  snd (ptx_to_cumodule ptxas_failing bad_ptx 70 world_start)
  = on_cuModuleLoad ptxas_failing (object_name ptxas_failing world_start)
      (fst (assembled ptxas_failing bad_ptx 70 world_start)) ∧
  (∀ status,
     ptx_to_cumodule (with_exit_status status ptxas_failing) bad_ptx 70
       world_start
     = ptx_to_cumodule ptxas_failing bad_ptx 70 world_start).
Proof.
  apply (load_follows_ptxas_whatever_status ptxas_failing bad_ptx 70
           world_start).
  reflexivity.
Defined.

(** C6, as stated, fails.  The driver's compiler rejects the text and leaves
    its complaint in the error log buffer; [ptx_to_cumodule] prints the text
    and a fixed sentence and throws, and the complaint is in neither
    stream. *)
Lemma captured_log_not_printed :
  let r := ptx_to_cumodule jit_rejecting bad_ptx 70 world_start in
  let captured := snd (fst (on_cuModuleLoadDataEx jit_rejecting bad_ptx)) in
  snd r = Throw invalid_ptx ∧
  captured
  = str "ptxas application ptx input, line 9; fatal   : Parsing error near '}'" ∧
  cout (fst r) = bad_ptx ++ [LF] ∧
  cerr (fst r) = str "It appears that Triton produced invalid PTX code:" ++ [LF] ∧
  find_first captured (cout (fst r)) = None ∧
  find_first captured (cerr (fst r)) = None ∧
  files (fst r) = ∅.
Proof. repeat split; vm_compute; reflexivity. Qed.

(** C6, amended.  Under either strategy, when the driver's load throws
    [invalid_ptx], [ptx_to_cumodule] appends the PTX text and a line end to
    [std::cout], appends a fixed sentence and a line end to [std::cerr], and
    throws [invalid_ptx] again; it returns no handle.  No exception is
    swallowed: whatever the load returns or throws is what the call returns
    or throws. *)
Theorem invalid_ptx_printed_and_rethrown (env : environment) (ptx : text)
    (cc : Z) (w : world) :
  driver_answer env ptx cc w = Throw invalid_ptx →
  snd (ptx_to_cumodule env ptx cc w) = Throw invalid_ptx ∧
  cout (fst (ptx_to_cumodule env ptx cc w)) = cout w ++ ptx ++ [LF] ∧
  cerr (fst (ptx_to_cumodule env ptx cc w))
  = cerr w ++ invalid_ptx_message ++ [LF] ∧
  (∀ env' ptx' cc' w',
     snd (ptx_to_cumodule env' ptx' cc' w') = driver_answer env' ptx' cc' w').
Proof.
  intros Hanswer.
  split; [by rewrite ptx_to_cumodule_answer|].
  split; [|split; [|exact ptx_to_cumodule_answer]];
    rewrite ptx_to_cumodule_catch; unfold driver_answer in Hanswer;
    destruct (use_system_ptxas env) eqn:Hprobe.
  - rewrite ptx_to_cumodule_try_ptxas by assumption. cbv zeta.
    by rewrite Hanswer.
  - rewrite ptx_to_cumodule_try_jit by assumption. by rewrite Hanswer.
  - rewrite ptx_to_cumodule_try_ptxas by assumption. cbv zeta.
    by rewrite Hanswer.
  - rewrite ptx_to_cumodule_try_jit by assumption. by rewrite Hanswer.
Qed.

Lemma invalid_ptx_printed_and_rethrown_witness :
  snd (ptx_to_cumodule jit_rejecting bad_ptx 70 world_start)
  = Throw invalid_ptx ∧
  cout (fst (ptx_to_cumodule jit_rejecting bad_ptx 70 world_start))
  = cout world_start ++ bad_ptx ++ [LF] ∧
  cerr (fst (ptx_to_cumodule jit_rejecting bad_ptx 70 world_start))
  = cerr world_start ++ invalid_ptx_message ++ [LF] ∧
  (∀ env' ptx' cc' w',
     snd (ptx_to_cumodule env' ptx' cc' w') = driver_answer env' ptx' cc' w').
Proof.
  apply (invalid_ptx_printed_and_rethrown jit_rejecting bad_ptx 70 world_start).
  reflexivity.
Defined.

(** C10. With the external assembler chosen, [ptx_to_cumodule] leaves the
    file [fsrc + ".o"] as the shell left it: the file is there, with the same
    content, when the call returns or throws. The only [unlink] calls are
    those for [fsrc] and [flog], and every other path holds after the call
    what it held when [system] returned. *)
Theorem object_file_remains (env : environment) (ptx : text) (cc : Z)
    (w : world) :
  use_system_ptxas env = true →
  files (fst (ptx_to_cumodule env ptx cc w)) !! object_name env w
  = fst (assembled env ptx cc w) !! object_name env w ∧
  (∀ object,
     fst (assembled env ptx cc w) !! object_name env w = Some object →
     files (fst (ptx_to_cumodule env ptx cc w)) !! object_name env w
     = Some object) ∧
  (∀ path, path ≠ fsrc_name env w → path ≠ flog_name env w →
     files (fst (ptx_to_cumodule env ptx cc w)) !! path
     = fst (assembled env ptx cc w) !! path) ∧
  (∃ new, calls (fst (ptx_to_cumodule env ptx cc w)) = calls w ++ new ∧
     ∀ path, call_unlink path ∈ new →
       path = fsrc_name env w ∨ path = flog_name env w).
Proof.
  intros Hprobe.
  assert (∀ path, path ≠ fsrc_name env w → path ≠ flog_name env w →
            files (fst (ptx_to_cumodule env ptx cc w)) !! path
            = fst (assembled env ptx cc w) !! path) as Hother.
  { intros path Hk Hl.
    destruct (ptx_to_cumodule_files_calls env ptx cc w) as [-> _].
    rewrite ptx_to_cumodule_try_ptxas by assumption. cbv zeta.
    destruct (on_cuModuleLoad _ _ _) as [m|e]; cbn [fst files]; [|done].
    by rewrite !lookup_delete_ne by congruence. }
  assert (files (fst (ptx_to_cumodule env ptx cc w)) !! object_name env w
          = fst (assembled env ptx cc w) !! object_name env w) as Hobject.
  { apply Hother; [apply fsrc_name_not_object | apply flog_name_not_object]. }
  split; [exact Hobject|].
  split; [intros object Hthere; by rewrite Hobject|].
  split; [exact Hother|].
  destruct (ptx_to_cumodule_files_calls env ptx cc w) as [_ ->].
  rewrite ptx_to_cumodule_try_ptxas by assumption. cbv zeta.
  destruct (on_cuModuleLoad _ _ _) as [m|e]; cbn [fst calls];
    rewrite <- ?app_assoc; eexists; (split; [reflexivity|]);
    intros path Hin; cbn [app] in Hin;
    repeat (apply elem_of_cons in Hin as [Hin|Hin]; [try discriminate|]);
    try (by apply elem_of_nil in Hin);
    injection Hin as ->; auto.
Qed.

Lemma object_file_remains_witness :
  files (fst (ptx_to_cumodule ptxas_working bad_ptx 70 world_start))
    !! object_name ptxas_working world_start
  = fst (assembled ptxas_working bad_ptx 70 world_start)
      !! object_name ptxas_working world_start ∧
  (∀ object,
     fst (assembled ptxas_working bad_ptx 70 world_start)
       !! object_name ptxas_working world_start = Some object →
     files (fst (ptx_to_cumodule ptxas_working bad_ptx 70 world_start))
       !! object_name ptxas_working world_start = Some object) ∧
  (∀ path, path ≠ fsrc_name ptxas_working world_start →
     path ≠ flog_name ptxas_working world_start →
     files (fst (ptx_to_cumodule ptxas_working bad_ptx 70 world_start)) !! path
     = fst (assembled ptxas_working bad_ptx 70 world_start) !! path) ∧
  (∃ new, calls (fst (ptx_to_cumodule ptxas_working bad_ptx 70 world_start))
          = calls world_start ++ new ∧
     ∀ path, call_unlink path ∈ new →
       path = fsrc_name ptxas_working world_start ∨
       path = flog_name ptxas_working world_start).
Proof.
  apply (object_file_remains ptxas_working bad_ptx 70 world_start).
  reflexivity.
Defined.

(** The object file of [ptxas_working] after the call. *)
Example object_file_left_behind :
  files (fst (ptx_to_cumodule ptxas_working bad_ptx 70 world_start))
  = {[ str "/tmp/triton_k_a1B2c3.o" := str "cubin" ]}.
Proof. vm_compute. reflexivity. Qed.

(* ================================================================== *)
(** * Further facts and examples *)

(** [vptx] is the table of the specification, read from the top. *)
Lemma vptx_VersionMapping (version : Z) :
  vptx version
  = match resolve VersionMapping version with
    | Some isa => Ok isa
    | None => Throw (runtime_error (str "Triton requires CUDA 10+"))
    end.
Proof.
  unfold vptx, resolve, VersionMapping. rewrite !Z.geb_leb.
  repeat match goal with
         | |- context [?a <=? ?b] => destruct (a <=? b); [reflexivity|]
         end.
  reflexivity.
Qed.

(** In the table the thresholds fall and the versions fall with them. *)
Lemma VersionMapping_sorted :
  StronglySorted (λ a b, fst b < fst a ∧ snd b < snd a) VersionMapping.
Proof.
  unfold VersionMapping.
  repeat (apply SSorted_cons; [|repeat (apply Forall_cons_2; [simpl; lia|]);
                                 apply Forall_nil_2]).
  apply SSorted_nil.
Qed.

(** A position that [find] returns is inside the text, so the [replace] of
    [find_and_replace] cannot throw [out_of_range]. *)
Lemma find_in_range (s pat : text) :
  size s < npos → find s pat 0 ≠ npos → 0 ≤ find s pat 0 ≤ size s.
Proof.
  intros Hs. rewrite find_0 by assumption.
  destruct (find_first pat s) as [k|] eqn:Hk; [|done].
  apply find_first_Some in Hk as [_ Hk]. unfold size. lia.
Qed.

(** The marker at position 0 and no line end anywhere: [end_replace + 1 -
    start_replace] is [npos + 1 - 0], which wraps to [0]; the target is put in
    front and nothing is replaced. *)
Example find_and_replace_wraps :
  find_and_replace (str ".version 6.4") (str ".version") [LF]
    (str ".version 7.3" ++ [LF])
  = (str ".version 7.3" ++ [LF] ++ str ".version 6.4", true).
Proof. vm_compute. reflexivity. Qed.

(** The marker after position 0 and no line end after it: the count wraps to
    a number beyond the end, and the rest of the text is replaced. *)
Example find_and_replace_to_the_end :
  find_and_replace (str "//.version 6.4") (str ".version") [LF]
    (str ".version 7.3" ++ [LF])
  = (str "//.version 7.3" ++ [LF], true).
Proof. vm_compute. reflexivity. Qed.

(** For the same reason the loop of line 142 does not end on a text that is
    the begin marker alone: every round reports a replacement and changes
    nothing. *)
Example begin_marker_alone_never_ends (fuel : nat) :
  while_find_and_replace fuel begin_inline_asm begin_inline_asm [LF] [] = None.
Proof. apply while_stuck. vm_compute. reflexivity. Qed.

(** Two pairs of comments on lines of their own are removed, the other lines
    stay as they were. *)
Example strip_inline_asm_two_pairs :
  strip_inline_asm 5
    (str "ld.param.u64 %rd1, [p];" ++ [LF]
       ++ begin_inline_asm ++ [LF]
       ++ TAB :: str "mov.u32 %r1, %tid.x;" ++ [LF]
       ++ end_inline_asm ++ [LF]
       ++ str "add.s32 %r2, %r1, 1;" ++ [LF]
       ++ begin_inline_asm ++ [LF]
       ++ TAB :: str "mov.u32 %r3, %ctaid.x;" ++ [LF]
       ++ end_inline_asm ++ [LF]
       ++ str "ret;" ++ [LF])
  = Some (str "ld.param.u64 %rd1, [p];" ++ [LF]
            ++ TAB :: str "mov.u32 %r1, %tid.x;" ++ [LF]
            ++ str "add.s32 %r2, %r1, 1;" ++ [LF]
            ++ TAB :: str "mov.u32 %r3, %ctaid.x;" ++ [LF]
            ++ str "ret;" ++ [LF]).
Proof. vm_compute. reflexivity. Qed.

(** Without [ptxas] the driver's compiler is used and no file is created. *)
Example jit_creates_no_file :
  let r := ptx_to_cumodule jit_rejecting bad_ptx 70 world_start in
  files (fst r) = ∅ ∧
  calls (fst r) = [call_exec (str "ptxas --version 2>&1");
                   call_cuModuleLoadDataEx bad_ptx].
Proof. split; vm_compute; reflexivity. Qed.

(* ================================================================== *)
(** * More about find_and_replace *)

(** X1. When the first begin marker sits right after [pre] and the first end
    marker from there on sits right after [mid], the call replaces the begin
    marker, [mid] and the first character of the end marker by the target and
    returns [true]; the other characters of the end marker stay in the
    text. *)
Theorem find_and_replace_between (pre begin mid e rest target : text)
    (c : ascii) :
  size (pre ++ begin ++ mid ++ c :: e ++ rest) < npos →
  find_first begin (pre ++ begin ++ mid ++ c :: e ++ rest)
  = Some (length pre) →
  find_first (c :: e) (begin ++ mid ++ c :: e ++ rest)
  = Some (length begin + length mid)%nat →
  find_and_replace (pre ++ begin ++ mid ++ c :: e ++ rest) begin (c :: e)
    target
  = (pre ++ target ++ e ++ rest, true).
Proof.
  intros Hs Hb He. rewrite find_and_replace_eq by assumption.
  unfold find_and_replace_cases. rewrite Hb, drop_app_length, He.
  rewrite take_app_length. do 3 f_equal.
  replace (length pre + (length begin + length mid) + 1)%nat
    with (length pre + (length begin + (length mid + 1)))%nat by lia.
  rewrite !drop_app_add. reflexivity.
Qed.

Lemma find_and_replace_between_witness :
  find_and_replace (str "a/*b*/c") (str "/*") (str "*/") (str "-")
  = (str "a-/c", true).
Proof.
  apply (find_and_replace_between (str "a") (str "/*") (str "b") (str "/")
           (str "c") (str "-") "*"%char);
    vm_compute; reflexivity.
Defined.

(** X2. The begin marker at the very start of a text in which the end marker
    does not occur: [npos + 1 - 0] wraps to [0], so nothing is replaced; the
    target is put in front of the unchanged text and the call returns
    [true]. *)
Theorem find_and_replace_inserts_in_front (s begin end_ target : text) :
  size s < npos →
  starts_with begin s = true →
  find_first end_ s = None →
  find_and_replace s begin end_ target = (target ++ s, true).
Proof.
  intros Hs Hb He. rewrite find_and_replace_eq by assumption.
  unfold find_and_replace_cases.
  rewrite (find_first_here _ _ Hb), drop_0. by rewrite He.
Qed.

Lemma find_and_replace_inserts_in_front_witness :
  find_and_replace (str ".target sm_75") (str ".target") [LF]
    (str ".target sm_86" ++ [LF])
  = (str ".target sm_86" ++ [LF] ++ str ".target sm_75", true).
Proof.
  apply (find_and_replace_inserts_in_front (str ".target sm_75")
           (str ".target") [LF] (str ".target sm_86" ++ [LF]));
    vm_compute; reflexivity.
Defined.

(** X3. The begin marker first found at a position [st > 0] with no end
    marker after it: the count wraps to a number past the end of the text, so
    everything from the begin marker on is replaced by the target. *)
Theorem find_and_replace_to_end_of_text (s begin end_ target : text)
    (st : nat) :
  size s < npos →
  find_first begin s = Some (S st) →
  find_first end_ (drop (S st) s) = None →
  find_and_replace s begin end_ target = (take (S st) s ++ target, true).
Proof.
  intros Hs Hb He. rewrite find_and_replace_eq by assumption.
  unfold find_and_replace_cases. by rewrite Hb, He.
Qed.

Lemma find_and_replace_to_end_of_text_witness :
  find_and_replace (str "ret;" ++ TAB :: str "// end inline asm")
    end_inline_asm [LF] []
  = (str "ret;", true).
Proof.
  apply (find_and_replace_to_end_of_text
           (str "ret;" ++ TAB :: str "// end inline asm")
           end_inline_asm [LF] [] 3);
    vm_compute; reflexivity.
Defined.

(** X4. The call returns [true] exactly when the begin marker occurs in the
    text.  It leaves the text as it was when the marker is absent, it keeps
    the characters in front of the first begin marker, and the text grows by
    at most the length of the target. *)
Theorem find_and_replace_found (s begin end_ target : text) :
  size s < npos →
  (snd (find_and_replace s begin end_ target) = true
   ↔ is_Some (find_first begin s)) ∧
  (find_first begin s = None →
   fst (find_and_replace s begin end_ target) = s) ∧
  (∀ st, find_first begin s = Some st →
     take st (fst (find_and_replace s begin end_ target)) = take st s) ∧
  (length (fst (find_and_replace s begin end_ target))
   ≤ length s + length target)%nat.
Proof.
  intros Hs. rewrite find_and_replace_eq by assumption.
  unfold find_and_replace_cases.
  destruct (find_first begin s) as [st|] eqn:Hb.
  2:{ cbn [fst snd]. repeat split; try done; try lia. }
  pose proof (find_first_Some _ _ _ Hb) as [_ Hst].
  assert (∀ x : text, take st (take st s ++ x) = take st s) as Htake.
  { intros x. rewrite take_app_le by (rewrite length_take; lia).
    rewrite take_take. f_equal. lia. }
  destruct (find_first end_ (drop st s)) as [k|]; [|destruct st as [|st']];
    cbn [fst snd]; (split; [split; [eauto | done]|]);
    (split; [done|]); (split; [intros ? [= <-]; first [apply Htake | done]|]);
    rewrite ?length_app, ?length_take, ?length_drop; lia.
Qed.

Lemma find_and_replace_found_witness :
  (snd (find_and_replace (str "x.version 6.4") (str ".version") [LF]
          (str ".version 7.3" ++ [LF])) = true
   ↔ is_Some (find_first (str ".version") (str "x.version 6.4"))) ∧
  (find_first (str ".version") (str "x.version 6.4") = None →
   fst (find_and_replace (str "x.version 6.4") (str ".version") [LF]
          (str ".version 7.3" ++ [LF])) = str "x.version 6.4") ∧
  (∀ st, find_first (str ".version") (str "x.version 6.4") = Some st →
     take st (fst (find_and_replace (str "x.version 6.4") (str ".version")
                     [LF] (str ".version 7.3" ++ [LF])))
     = take st (str "x.version 6.4")) ∧
  (length (fst (find_and_replace (str "x.version 6.4") (str ".version") [LF]
                  (str ".version 7.3" ++ [LF])))
   ≤ length (str "x.version 6.4") + length (str ".version 7.3" ++ [LF]))%nat.
Proof.
  apply (find_and_replace_found (str "x.version 6.4") (str ".version") [LF]
           (str ".version 7.3" ++ [LF])).
  vm_compute. reflexivity.
Defined.

(* ================================================================== *)
(** * More about the erasing loops *)

(** X5. A loop that erases (empty target) either ends within
    [length s + 1] rounds, with a value that more rounds do not change, or
    never ends. *)
Theorem while_erase_ends_or_never (s marker end_ : text) :
  size s < npos →
  (∃ r, ∀ fuel, (length s < fuel)%nat →
          while_find_and_replace fuel s marker end_ [] = Some r) ∨
  (∀ fuel, while_find_and_replace fuel s marker end_ [] = None).
Proof.
  remember (length s) as n eqn:Hn. revert s Hn.
  induction n as [n IH] using lt_wf_ind. intros s -> Hs.
  destruct (find_first marker s) as [st|] eqn:Hb.
  - destruct (erase_step s marker end_ st Hb) as (s1 & Hstep & [->|Hlen]).
    + right. intros fuel. apply while_stuck.
      by rewrite find_and_replace_eq.
    + destruct (IH (length s1) Hlen s1 eq_refl) as [[r Hr]|Hnever].
      * unfold size in *. lia.
      * left. exists r. intros [|fuel] Hfuel; [lia|].
        cbn [while_find_and_replace].
        rewrite find_and_replace_eq, Hstep by assumption.
        apply Hr. lia.
      * right. intros [|fuel]; [reflexivity|].
        cbn [while_find_and_replace].
        rewrite find_and_replace_eq, Hstep by assumption.
        apply Hnever.
  - left. exists s. intros [|fuel] Hfuel; [lia|].
    by apply while_absent.
Qed.

Lemma while_erase_ends_or_never_witness :
  (∃ r, ∀ fuel, (length (begin_inline_asm ++ [LF]) < fuel)%nat →
          while_find_and_replace fuel (begin_inline_asm ++ [LF])
            begin_inline_asm [LF] [] = Some r) ∨
  (∀ fuel, while_find_and_replace fuel (begin_inline_asm ++ [LF])
             begin_inline_asm [LF] [] = None).
Proof.
  apply (while_erase_ends_or_never (begin_inline_asm ++ [LF])
           begin_inline_asm [LF]).
  vm_compute. reflexivity.
Defined.

(** X6. When an erasing loop ends, its marker no longer occurs in the text it
    leaves, that text is not longer than the one it started from, and it is
    the same text exactly when the marker did not occur to begin with. *)
Theorem while_erase_result (fuel : nat) (s r marker end_ : text) :
  size s < npos →
  while_find_and_replace fuel s marker end_ [] = Some r →
  find_first marker r = None ∧ (length r ≤ length s)%nat ∧
  (r = s ↔ find_first marker s = None).
Proof.
  intros Hs Hw.
  destruct (while_erase_inv _ _ _ _ _ Hs Hw) as (Hgone & Hlen & Hshorter).
  split; [exact Hgone|]. split; [exact Hlen|]. split.
  - intros ->. destruct (find_first marker s) eqn:Hb; [|done].
    specialize (Hshorter (mk_is_Some _ _ eq_refl)). lia.
  - intros Hb. destruct fuel as [|fuel]; [discriminate|].
    rewrite while_absent in Hw by assumption. congruence.
Qed.

Lemma while_erase_result_witness :
  let s := str "ret;" ++ end_inline_asm ++ str " x" ++ [LF] ++ str "}" in
  find_first end_inline_asm (str "ret;}") = None ∧
  (length (str "ret;}") ≤ length s)%nat ∧
  (str "ret;}" = s ↔ find_first end_inline_asm s = None).
Proof.
  intros s.
  apply (while_erase_result 3 s (str "ret;}") end_inline_asm [LF]);
    vm_compute; reflexivity.
Defined.

(** X7. When the pass of lines 142-143 ends, the text it leaves is not longer
    than the one it was given and holds no end marker, and it is the same
    text exactly when neither marker occurred in it. *)
Theorem strip_inline_asm_result (fuel : nat) (s r : text) :
  size s < npos →
  strip_inline_asm fuel s = Some r →
  (length r ≤ length s)%nat ∧
  find_first end_inline_asm r = None ∧
  (r = s ↔ find_first begin_inline_asm s = None ∧
           find_first end_inline_asm s = None).
Proof.
  intros Hs. unfold strip_inline_asm.
  destruct (while_find_and_replace fuel s begin_inline_asm [LF] [])
    as [s1|] eqn:H1; [|discriminate].
  intros H2.
  destruct (while_erase_inv _ _ _ _ _ Hs H1) as (_ & Hl1 & Hsh1).
  assert (size s1 < npos) as Hs1 by (unfold size in *; lia).
  destruct (while_erase_inv _ _ _ _ _ Hs1 H2) as (He & Hl2 & Hsh2).
  split; [lia|]. split; [exact He|]. split.
  - intros ->.
    destruct (find_first begin_inline_asm s) eqn:Hb.
    { specialize (Hsh1 (mk_is_Some _ _ eq_refl)). lia. }
    destruct fuel as [|fuel]; [discriminate|].
    rewrite while_absent in H1 by assumption. injection H1 as <-.
    split; [reflexivity|].
    destruct (find_first end_inline_asm s) eqn:Hend; [|done].
    specialize (Hsh2 (mk_is_Some _ _ eq_refl)). lia.
  - intros [Hb Hend]. destruct fuel as [|fuel]; [discriminate|].
    rewrite while_absent in H1 by assumption. injection H1 as <-.
    rewrite while_absent in H2 by assumption. congruence.
Qed.

Lemma strip_inline_asm_result_witness :
  let s := str "mov" ++ [LF] ++ begin_inline_asm ++ [LF] ++ TAB :: str "ld"
             ++ [LF] ++ end_inline_asm ++ [LF] in
  let r := str "mov" ++ [LF] ++ TAB :: str "ld" ++ [LF] in
  (length r ≤ length s)%nat ∧
  find_first end_inline_asm r = None ∧
  (r = s ↔ find_first begin_inline_asm s = None ∧
           find_first end_inline_asm s = None).
Proof.
  intros s r.
  apply (strip_inline_asm_result 9 s r); vm_compute; reflexivity.
Defined.

(** X8. The pass never touches what stands in front of the first tab: on a
    text [pre ++ body] with no tab in a non-empty [pre], it ends within
    [length body + 1] rounds per loop and returns [pre] followed by what is
    left of [body]. *)
Theorem strip_inline_asm_keeps_prefix (pre body : text) :
  TAB ∉ pre → pre ≠ [] → size (pre ++ body) < npos →
  ∃ body', (length body' ≤ length body)%nat ∧
    ∀ fuel, (length body < fuel)%nat →
      strip_inline_asm fuel (pre ++ body) = Some (pre ++ body').
Proof.
  intros Htab Hne Hs.
  destruct (while_erase_after_prefix TAB (str "// begin inline asm") pre
              Htab Hne (S (length body)) body Hs ltac:(lia))
    as (b1 & H1 & Hl1).
  destruct (while_erase_after_prefix TAB (str "// end inline asm") pre
              Htab Hne (S (length body)) b1) as (b2 & H2 & Hl2).
  { rewrite size_app in *. unfold size in *. lia. } { lia. }
  exists b2. split; [lia|]. intros fuel Hfuel. unfold strip_inline_asm.
  change begin_inline_asm with (TAB :: str "// begin inline asm").
  change end_inline_asm with (TAB :: str "// end inline asm").
  rewrite (while_fuel_mono _ fuel _ _ _ _ _ H1) by lia.
  apply (while_fuel_mono _ fuel _ _ _ _ _ H2). lia.
Qed.

Lemma strip_inline_asm_keeps_prefix_witness :
  ∃ body', (length body' ≤ length nvptx_body)%nat ∧
    ∀ fuel, (length nvptx_body < fuel)%nat →
      strip_inline_asm fuel (nvptx_preamble ++ nvptx_body)
      = Some (nvptx_preamble ++ body').
Proof.
  apply (strip_inline_asm_keeps_prefix nvptx_preamble nvptx_body);
    [by_evaluation | discriminate | vm_compute; reflexivity].
Defined.

(* ================================================================== *)
(** * The erasing loops on texts made of lines *)

Lemma unlines_app (a b : list text) : unlines (a ++ b) = unlines a ++ unlines b.
Proof.
  induction a as [|l a IH]; [reflexivity|].
  cbn [app unlines]. rewrite IH, <- app_assoc. reflexivity.
Qed.

(** A marker without a line end that starts in a line ends in it. *)
Lemma starts_with_in_line (m l rest : text) :
  LF ∉ m → starts_with m (l ++ LF :: rest) = true → starts_with m l = true.
Proof.
  revert l. induction m as [|p m IH]; intros l Hlf; [reflexivity|].
  apply not_elem_of_cons in Hlf as [Hp Hm].
  destruct l as [|a l]; cbn [app starts_with].
  - destruct (Ascii.eqb_spec p LF); [congruence | discriminate].
  - destruct (Ascii.eqb p a); [by apply IH | discriminate].
Qed.

(** A line in which the marker does not occur is passed over. *)
Lemma find_first_skip_line (c : ascii) (pat l rest : text) :
  LF ∉ c :: pat → find_first (c :: pat) l = None →
  find_first (c :: pat) (l ++ LF :: rest)
  = (λ k, length l + 1 + k)%nat <$> find_first (c :: pat) rest.
Proof.
  intros Hlf. induction l as [|a l IH]; intros Hnone.
  - cbn [app]. rewrite find_first_cons_ne.
    + by destruct (find_first (c :: pat) rest).
    + apply not_elem_of_cons in Hlf as [Hc _]. congruence.
  - cbn [find_first] in Hnone.
    destruct (starts_with (c :: pat) (a :: l)) eqn:Hsw; [discriminate|].
    destruct (find_first (c :: pat) l) eqn:Hl; [discriminate|].
    change ((a :: l) ++ LF :: rest) with (a :: (l ++ LF :: rest)).
    cbn [find_first].
    destruct (starts_with (c :: pat) (a :: l ++ LF :: rest)) eqn:Hsw'.
    { apply (starts_with_in_line _ (a :: l)) in Hsw'; [congruence | done]. }
    rewrite IH by reflexivity.
    by destruct (find_first (c :: pat) rest).
Qed.

Lemma find_first_skip_lines (c : ascii) (pat : text) (before : list text)
    (rest : text) :
  LF ∉ c :: pat →
  Forall (λ l, find_first (c :: pat) l = None) before →
  find_first (c :: pat) (unlines before ++ rest)
  = (λ k, length (unlines before) + k)%nat <$> find_first (c :: pat) rest.
Proof.
  intros Hlf Hall. induction Hall as [|l before Hl Hall IH].
  - change (unlines [] ++ rest) with rest.
    destruct (find_first (c :: pat) rest); reflexivity.
  - cbn [unlines]. rewrite <- app_assoc. cbn [app].
    rewrite find_first_skip_line, IH by assumption.
    destruct (find_first (c :: pat) rest); cbn [fmap option_fmap option_map];
      [|reflexivity].
    f_equal. rewrite length_app. cbn [length]. lia.
Qed.

(** The loop on lines: behind lines already found free of the marker, every
    line that starts with the marker is deleted with its line end. *)
Lemma while_erase_lines_from (c : ascii) (pat : text) (ls : list text) :
  LF ∉ c :: pat →
  Forall (λ l, (LF ∉ l) ∧ (starts_with (c :: pat) l = true ∨
                         find_first (c :: pat) l = None)) ls →
  ∀ (before : list text) (fuel : nat),
    Forall (λ l, find_first (c :: pat) l = None) before →
    size (unlines (before ++ ls)) < npos →
    (length ls < fuel)%nat →
    while_find_and_replace fuel (unlines (before ++ ls)) (c :: pat) [LF] []
    = Some (unlines (before ++ without_lines_of (c :: pat) ls)).
Proof.
  intros Hlf Hall. induction Hall as [|l ls [Hl Hcase] Hall IH];
    intros before fuel Hbefore Hs Hfuel.
  - destruct fuel as [|fuel]; [simpl in Hfuel; lia|].
    apply while_absent; [assumption|].
    cbn [without_lines_of filter list_filter]. rewrite app_nil_r.
    rewrite <- (app_nil_r (unlines before)).
    by rewrite find_first_skip_lines.
  - destruct (starts_with (c :: pat) l) eqn:Hsw.
    + (* a marker line: one round deletes it *)
      destruct fuel as [|fuel]; [simpl in Hfuel; lia|].
      cbn [while_find_and_replace].
      rewrite find_and_replace_eq by assumption.
      unfold find_and_replace_cases.
      rewrite unlines_app. cbn [unlines].
      rewrite find_first_skip_lines by assumption.
      apply starts_with_prefix in Hsw as Hpre. destruct Hpre as [tail Htail].
      rewrite (find_first_here (c :: pat) (l ++ LF :: unlines ls)).
      2:{ rewrite Htail, <- app_assoc. apply starts_with_app. }
      cbn [fmap option_fmap option_map].
      rewrite Nat.add_0_r, drop_app_length.
      rewrite (find_first_app_notin LF [] l (LF :: unlines ls)) by assumption.
      rewrite (find_first_here [LF] (LF :: unlines ls)) by reflexivity.
      cbn [fmap option_fmap option_map app].
      rewrite take_app_length.
      replace (length (unlines before) + (length l + 0) + 1)%nat
        with (length (unlines before) + (length l + 1))%nat by lia.
      rewrite drop_app_add.
      replace (length l + 1)%nat with (length l + 1 + 0)%nat by lia.
      rewrite <- Nat.add_assoc, drop_app_add.
      change (drop (1 + 0) (LF :: unlines ls)) with (unlines ls).
      rewrite <- unlines_app.
      unfold without_lines_of. rewrite filter_cons_False by congruence.
      apply IH; [assumption | | simpl in Hfuel; lia].
      unfold size in *. rewrite !unlines_app, !length_app in *.
      cbn [unlines] in Hs. rewrite length_app in Hs.
      cbn [length] in Hs. lia.
    + (* a line without the marker: it joins the lines passed over *)
      destruct Hcase as [|Hnone]; [congruence|].
      unfold without_lines_of. rewrite filter_cons_True by assumption.
      fold (without_lines_of (c :: pat) ls).
      replace (before ++ l :: ls) with ((before ++ [l]) ++ ls) in *
        by (by rewrite <- app_assoc).
      replace (before ++ l :: without_lines_of (c :: pat) ls)
        with ((before ++ [l]) ++ without_lines_of (c :: pat) ls)
        by (by rewrite <- app_assoc).
      apply IH.
      * apply Forall_app. split; [assumption | by constructor].
      * assumption.
      * simpl in Hfuel. lia.
Qed.

Lemma find_first_unlines_None (c : ascii) (pat : text) (ls : list text) :
  LF ∉ c :: pat →
  Forall (λ l, find_first (c :: pat) l = None) ls →
  find_first (c :: pat) (unlines ls) = None.
Proof.
  intros Hlf Hall. rewrite <- (app_nil_r (unlines ls)).
  by rewrite find_first_skip_lines.
Qed.

Lemma length_unlines_filter (P : text → Prop) `{∀ l, Decision (P l)}
    (ls : list text) :
  (length (unlines (filter P ls)) ≤ length (unlines ls))%nat.
Proof.
  induction ls as [|l ls IH]; [done|].
  destruct (decide (P l)).
  - rewrite filter_cons_True by assumption. cbn [unlines].
    rewrite !length_app. cbn [length]. lia.
  - rewrite filter_cons_False by assumption. cbn [unlines].
    rewrite length_app. cbn [length]. lia.
Qed.

(** X9. On a text of complete lines in which each marker occurs only at the
    start of lines, the pass of lines 142-143 ends within [length ls + 1]
    rounds per loop, deletes exactly the lines that start with a marker and
    leaves every other line as it was; a second pass over the result changes
    nothing. *)
Theorem strip_inline_asm_lines (ls : list text) (fuel : nat) :
  Forall (λ l, (LF ∉ l) ∧
               (starts_with begin_inline_asm l = true ∨
                find_first begin_inline_asm l = None) ∧
               (starts_with end_inline_asm l = true ∨
                find_first end_inline_asm l = None)) ls →
  size (unlines ls) < npos →
  (length ls < fuel)%nat →
  strip_inline_asm fuel (unlines ls)
  = Some (unlines (without_lines_of end_inline_asm
                     (without_lines_of begin_inline_asm ls))) ∧
  strip_inline_asm fuel
    (unlines (without_lines_of end_inline_asm
                (without_lines_of begin_inline_asm ls)))
  = Some (unlines (without_lines_of end_inline_asm
                     (without_lines_of begin_inline_asm ls))).
Proof.
  intros Hall Hs Hfuel.
  assert (LF ∉ begin_inline_asm) as Hlfb by by_evaluation.
  assert (LF ∉ end_inline_asm) as Hlfe by by_evaluation.
  set (kept := without_lines_of begin_inline_asm ls).
  set (left := without_lines_of end_inline_asm kept).
  assert (size (unlines kept) < npos) as Hsk.
  { pose proof (length_unlines_filter
                  (λ l, starts_with begin_inline_asm l = false) ls).
    unfold kept, without_lines_of, size in *. lia. }
  assert (size (unlines left) < npos) as Hsl.
  { pose proof (length_unlines_filter
                  (λ l, starts_with end_inline_asm l = false) kept).
    unfold left, without_lines_of, size in *. lia. }
  assert (while_find_and_replace fuel (unlines ls) begin_inline_asm [LF] []
          = Some (unlines kept)) as H142.
  { apply (while_erase_lines_from TAB (str "// begin inline asm") ls Hlfb)
      with (before := []); [|constructor|assumption..].
    eapply Forall_impl; [exact Hall|]. intros l (? & ? & ?). by split. }
  assert (while_find_and_replace fuel (unlines kept) end_inline_asm [LF] []
          = Some (unlines left)) as H143.
  { apply (while_erase_lines_from TAB (str "// end inline asm") kept Hlfe)
      with (before := []); [|constructor|assumption|].
    - apply Forall_forall. intros l Hl.
      apply list_elem_of_filter in Hl as [_ Hl].
      rewrite Forall_forall in Hall. destruct (Hall l Hl) as (? & _ & ?).
      by split.
    - pose proof (length_filter
                    (λ l, starts_with begin_inline_asm l = false) ls).
      unfold kept, without_lines_of. lia. }
  split.
  - unfold strip_inline_asm. by rewrite H142.
  - assert (Forall (λ l, find_first begin_inline_asm l = None ∧
                         find_first end_inline_asm l = None) left) as Hclean.
    { apply Forall_forall. intros l Hl.
      apply list_elem_of_filter in Hl as [Hne Hl].
      apply list_elem_of_filter in Hl as [Hnb Hl].
      rewrite Forall_forall in Hall.
      destruct (Hall l Hl) as (_ & [?|?] & [?|?]); try congruence.
      by split. }
    destruct fuel as [|fuel]; [lia|].
    unfold strip_inline_asm.
    rewrite while_absent; [apply while_absent | |]; try assumption.
    + apply (find_first_unlines_None TAB (str "// end inline asm"));
        [assumption|].
      eapply Forall_impl; [exact Hclean|]. by intros l [_ ?].
    + apply (find_first_unlines_None TAB (str "// begin inline asm"));
        [assumption|].
      eapply Forall_impl; [exact Hclean|]. by intros l [? _].
Qed.

Lemma strip_inline_asm_lines_witness :
  let ls := [ str "ld.param.u64 %rd1, [p];"; begin_inline_asm;
              TAB :: str "mov.u32 %r1, %tid.x;"; end_inline_asm;
              str "ret;" ] in
  strip_inline_asm 6 (unlines ls)
  = Some (unlines (without_lines_of end_inline_asm
                     (without_lines_of begin_inline_asm ls))) ∧
  strip_inline_asm 6
    (unlines (without_lines_of end_inline_asm
                (without_lines_of begin_inline_asm ls)))
  = Some (unlines (without_lines_of end_inline_asm
                     (without_lines_of begin_inline_asm ls))).
Proof.
  intros ls. apply (strip_inline_asm_lines ls 6).
  - repeat (apply Forall_cons_2;
            [split; [by_evaluation|];
             split; first [left; vm_compute; reflexivity
                          | right; vm_compute; reflexivity] |]).
    apply Forall_nil_2.
  - vm_compute. reflexivity.
  - simpl. lia.
Defined.

(** The lines kept in the example: the two comment lines are gone. *)
Example strip_inline_asm_lines_kept :
  without_lines_of end_inline_asm
    (without_lines_of begin_inline_asm
       [ str "ld.param.u64 %rd1, [p];"; begin_inline_asm;
         TAB :: str "mov.u32 %r1, %tid.x;"; end_inline_asm; str "ret;" ])
  = [ str "ld.param.u64 %rd1, [p];"; TAB :: str "mov.u32 %r1, %tid.x;";
      str "ret;" ].
Proof. vm_compute. reflexivity. Qed.

(** X10. An erasing loop never ends on a text that starts with its marker
    and holds no line end: every round reports a replacement and leaves the
    text as it was. *)
Theorem while_erase_hangs (s marker : text) (fuel : nat) :
  size s < npos →
  starts_with marker s = true →
  LF ∉ s →
  while_find_and_replace fuel s marker [LF] [] = None.
Proof.
  intros Hs Hb Hlf. apply while_stuck.
  rewrite find_and_replace_eq by assumption.
  unfold find_and_replace_cases.
  rewrite (find_first_here _ _ Hb), drop_0.
  by rewrite (find_first_notin LF [] s Hlf).
Qed.

Lemma while_erase_hangs_witness :
  while_find_and_replace 1000 (end_inline_asm ++ str " ret;")
    end_inline_asm [LF] [] = None.
Proof.
  apply (while_erase_hangs (end_inline_asm ++ str " ret;") end_inline_asm
           1000); [vm_compute; reflexivity | vm_compute; reflexivity
                  | by_evaluation].
Defined.

(* ================================================================== *)
(** * More about llir_to_ptx *)

Lemma find_and_replace_length (s begin end_ target : text) :
  size s < npos →
  (length (fst (find_and_replace s begin end_ target))
   ≤ length s + length target)%nat.
Proof.
  intros Hs. rewrite find_and_replace_eq by assumption.
  unfold find_and_replace_cases.
  destruct (find_first begin s) as [st|]; [|cbn [fst]; lia].
  destruct (find_first end_ (drop st s)) as [k|]; [|destruct st];
    cbn [fst]; rewrite ?length_app, ?length_take, ?length_drop; lia.
Qed.

(** X11. For a toolkit version below 10000 [llir_to_ptx] throws
    [std::runtime_error] whatever the module, the capability and LLVM are:
    the option [nvptx-short-ptr] has been set, but the backend has not been
    registered and LLVM has not been run. *)
Theorem llir_to_ptx_unsupported_toolkit {llvm_module : Type}
    (emit_assembly : llvm_module → text → text → text → text)
    (fuel : nat) (s : llvm_state) (module : llvm_module) (cc version : Z) :
  version < 10000 →
  llir_to_ptx llvm_module emit_assembly fuel s module cc version
  = Some ({| init := init s; registered := registered s;
             nvptx_short_ptr := true |},
          Throw (runtime_error (str "Triton requires CUDA 10+"))).
Proof.
  intros Hv. unfold llir_to_ptx.
  assert (vptx version
          = Throw (runtime_error (str "Triton requires CUDA 10+"))) as ->
    by (vptx_cases; reflexivity).
  reflexivity.
Qed.

Lemma llir_to_ptx_unsupported_toolkit_witness :
  llir_to_ptx unit nvptx_printer 0 process_start tt 86 9020
  = Some ({| init := false; registered := []; nvptx_short_ptr := true |},
          Throw (runtime_error (str "Triton requires CUDA 10+"))).
Proof.
  apply (llir_to_ptx_unsupported_toolkit nvptx_printer 0 process_start tt
           86 9020).
  lia.
Defined.

(** X12. Calls of [llir_to_ptx] one after the other register the backend
    once: after a call that returns a text the guard is set and the calls
    made are those made before, followed, if the guard was clear, by
    [LLVMInitializeNVPTXTargetInfo], [LLVMInitializeNVPTXTarget],
    [LLVMInitializeNVPTXTargetMC] and [LLVMInitializeNVPTXAsmPrinter]; the
    call after it registers nothing. *)
Theorem llir_to_ptx_registers_once {llvm_module : Type}
    (emit_assembly : llvm_module → text → text → text → text)
    (fuel1 fuel2 : nat) (s s1 s2 : llvm_state) (module1 module2 : llvm_module)
    (cc1 cc2 version1 version2 : Z) (out : text) (r : result text) :
  llir_to_ptx llvm_module emit_assembly fuel1 s module1 cc1 version1
  = Some (s1, Ok out) →
  llir_to_ptx llvm_module emit_assembly fuel2 s1 module2 cc2 version2
  = Some (s2, r) →
  init s1 = true ∧
  registered s1
  = (if init s then registered s
     else registered s
            ++ [LLVMInitializeNVPTXTargetInfo; LLVMInitializeNVPTXTarget;
                LLVMInitializeNVPTXTargetMC; LLVMInitializeNVPTXAsmPrinter]) ∧
  registered s2 = registered s1.
Proof.
  intros H1 H2.
  destruct (llir_to_ptx_state _ _ _ _ _ _ _ _ H1) as (_ & Hset & Hclear & _).
  assert (init s1 = true ∧
          registered s1 = (if init s then registered s
                           else registered s ++ backend_registration))
    as [Hi Hr].
  { destruct (init s); [by apply Hset | by apply (Hclear out)]. }
  destruct (llir_to_ptx_state _ _ _ _ _ _ _ _ H2) as (_ & Hset2 & _ & _).
  split; [exact Hi|]. split; [exact Hr|]. by apply Hset2.
Qed.

Lemma llir_to_ptx_registers_once_witness :
  let s1 := {| init := true;
               registered :=
                 [LLVMInitializeNVPTXTargetInfo; LLVMInitializeNVPTXTarget;
                  LLVMInitializeNVPTXTargetMC; LLVMInitializeNVPTXAsmPrinter];
               nvptx_short_ptr := true |} in
  init s1 = true ∧
  registered s1
  = (if init process_start then registered process_start
     else registered process_start
            ++ [LLVMInitializeNVPTXTargetInfo; LLVMInitializeNVPTXTarget;
                LLVMInitializeNVPTXTargetMC; LLVMInitializeNVPTXAsmPrinter]) ∧
  registered s1 = registered s1.
Proof.
  intros s1.
  apply (llir_to_ptx_registers_once nvptx_printer 50 50 process_start s1 s1
           tt tt 86 70 11030 10020
           (nvptx_preamble ++ str ".version 7.3" ++ [LF]
              ++ str ".target sm_86" ++ [LF]
              ++ str ".address_size 64" ++ [LF] ++ [LF]
              ++ TAB :: str "mov.u32 %r1, %tid.x;" ++ [LF])
           (Ok (nvptx_preamble ++ str ".version 6.5" ++ [LF]
                  ++ str ".target sm_70" ++ [LF]
                  ++ str ".address_size 64" ++ [LF] ++ [LF]
                  ++ TAB :: str "mov.u32 %r1, %tid.x;" ++ [LF])));
    vm_compute; reflexivity.
Defined.

(** X13. A text returned by [llir_to_ptx] holds no end-inline-asm marker,
    whatever LLVM printed. *)
Theorem llir_to_ptx_no_end_marker {llvm_module : Type}
    (emit_assembly : llvm_module → text → text → text → text)
    (fuel : nat) (s s' : llvm_state) (module : llvm_module)
    (cc version ptx : Z) (out : text) :
  vptx version = Ok ptx →
  size (emit_assembly module (str "nvptx64-nvidia-cuda")
          (str "sm_" ++ to_string (Z.min cc 75))
          (str "+ptx" ++ to_string (Z.min ptx 64)))
    + size (to_string cc) + 64 < npos →
  llir_to_ptx llvm_module emit_assembly fuel s module cc version
  = Some (s', Ok out) →
  find_first end_inline_asm out = None.
Proof.
  intros Hv Hsize. unfold llir_to_ptx. rewrite Hv.
  cbv zeta. rewrite target_directive_eq.
  change (str ".version " ++ to_string (Z.quot ptx 10) ++ str "."
            ++ to_string (Z.rem ptx 10) ++ [LF])
    with (version_directive ptx).
  set (raw := emit_assembly module _ _ _) in *.
  rewrite npos_val in Hsize.
  destruct (find_first_target_after_version ptx [] (vptx_Ok _ _ Hv))
    as (_ & Hlen & _ & _).
  set (r1 := fst (find_and_replace raw (str ".version") [LF]
                    (version_directive ptx))).
  assert (length r1 ≤ length raw + 13)%nat as Hr1.
  { unfold r1. rewrite <- Hlen. apply find_and_replace_length.
    rewrite npos_val. unfold size in *. lia. }
  set (r2 := fst (find_and_replace r1 (str ".target") [LF]
                    (target_directive cc))).
  assert (length r2 ≤ length r1 + (12 + length (to_string cc)))%nat as Hr2.
  { unfold r2.
    replace (12 + length (to_string cc))%nat
      with (length (target_directive cc))
      by (unfold target_directive; rewrite !length_app;
          change (length (str ".target sm_")) with 11%nat;
          change (length [LF]) with 1%nat; lia).
    apply find_and_replace_length.
    rewrite npos_val. unfold size in *. lia. }
  unfold strip_inline_asm.
  destruct (while_find_and_replace fuel r2 begin_inline_asm [LF] [])
    as [r3|] eqn:H142; [|discriminate].
  destruct (while_find_and_replace fuel r3 end_inline_asm [LF] [])
    as [r4|] eqn:H143; [|discriminate].
  intros [= _ <-].
  assert (size r2 < npos) as Hs2 by (rewrite npos_val; unfold size in *; lia).
  destruct (while_erase_inv _ _ _ _ _ Hs2 H142) as (_ & Hl3 & _).
  assert (size r3 < npos) as Hs3 by (unfold size in *; lia).
  by destruct (while_erase_inv _ _ _ _ _ Hs3 H143) as (? & _ & _).
Qed.

Lemma llir_to_ptx_no_end_marker_witness :
  find_first end_inline_asm
    (nvptx_preamble ++ str ".version 7.3" ++ [LF]
       ++ str ".target sm_86" ++ [LF]
       ++ str ".address_size 64" ++ [LF] ++ [LF]
       ++ TAB :: str "mov.u32 %r1, %tid.x;" ++ [LF]) = None.
Proof.
  apply (llir_to_ptx_no_end_marker nvptx_printer 50 process_start
           {| init := true; registered := backend_registration;
              nvptx_short_ptr := true |} tt 86 11030 73);
    vm_compute; reflexivity.
Defined.

(** X14. When LLVM's text holds neither [.version] nor [.target], lines 140
    and 141 add nothing: for a supported toolkit the text returned is LLVM's
    text after the pass of lines 142-143, without any directive. *)
Theorem llir_to_ptx_without_directives {llvm_module : Type}
    (emit_assembly : llvm_module → text → text → text → text)
    (fuel : nat) (s : llvm_state) (module : llvm_module)
    (cc version ptx : Z) (raw : text) :
  vptx version = Ok ptx →
  emit_assembly module (str "nvptx64-nvidia-cuda")
    (str "sm_" ++ to_string (Z.min cc 75))
    (str "+ptx" ++ to_string (Z.min ptx 64)) = raw →
  size raw < npos →
  find_first (str ".version") raw = None →
  find_first (str ".target") raw = None →
  llir_to_ptx llvm_module emit_assembly fuel s module cc version
  = match strip_inline_asm fuel raw with
    | Some result =>
        Some (init_llvm {| init := init s; registered := registered s;
                           nvptx_short_ptr := true |}, Ok result)
    | None => None
    end.
Proof.
  intros Hv Hraw Hs Hversion Htarget. unfold llir_to_ptx.
  rewrite Hv. cbv zeta. rewrite Hraw.
  rewrite (find_and_replace_absent raw (str ".version")) by assumption.
  cbn [fst].
  rewrite (find_and_replace_absent raw (str ".target")) by assumption.
  reflexivity.
Qed.

Lemma llir_to_ptx_without_directives_witness :
  llir_to_ptx unit (λ _ _ _ _, str "// empty module" ++ [LF]) 1
    process_start tt 70 11000
  = match strip_inline_asm 1 (str "// empty module" ++ [LF]) with
    | Some result =>
        Some (init_llvm {| init := init process_start;
                           registered := registered process_start;
                           nvptx_short_ptr := true |}, Ok result)
    | None => None
    end.
Proof.
  apply (llir_to_ptx_without_directives
           (λ _ _ _ _, str "// empty module" ++ [LF]) 1 process_start tt
           70 11000 70); vm_compute; reflexivity.
Defined.

(** X15. For a capability of 75 or more and a toolkit of 10010 or more, LLVM
    is run for the processor [sm_75] with the feature [+ptx64] on the triple
    [nvptx64-nvidia-cuda], and for nothing else: what it would print for
    other arguments does not matter. *)
Theorem llir_to_ptx_asks_for_the_ceiling {llvm_module : Type}
    (emit_assembly : llvm_module → text → text → text → text)
    (fuel : nat) (s : llvm_state) (module : llvm_module) (cc version : Z) :
  75 ≤ cc → 10010 ≤ version →
  llir_to_ptx llvm_module emit_assembly fuel s module cc version
  = llir_to_ptx llvm_module
      (λ m _ _ _,
         emit_assembly m (str "nvptx64-nvidia-cuda") (str "sm_75")
           (str "+ptx64"))
      fuel s module cc version.
Proof.
  intros Hcc Hv. unfold llir_to_ptx.
  destruct (vptx version) as [ptx|e] eqn:Hptx; [|reflexivity].
  cbv zeta. rewrite (Z.min_r cc 75) by lia.
  assert (Z.min ptx 64 = 64) as ->.
  { revert Hptx. vptx_cases; intros [= <-]; reflexivity. }
  reflexivity.
Qed.

Lemma llir_to_ptx_asks_for_the_ceiling_witness :
  llir_to_ptx unit nvptx_printer 50 process_start tt 86 11030
  = llir_to_ptx unit
      (λ m _ _ _,
         nvptx_printer m (str "nvptx64-nvidia-cuda") (str "sm_75")
           (str "+ptx64"))
      50 process_start tt 86 11030.
Proof.
  apply (llir_to_ptx_asks_for_the_ceiling nvptx_printer 50 process_start tt
           86 11030); lia.
Defined.

(* ================================================================== *)
(** * More about ptx_to_cumodule *)

(** X16. Without [ptxas] (the probe of line 153 does not exit with 0) the
    driver's own compiler is used: the only calls are the probe and
    [cuModuleLoadDataEx] on the PTX text, no file is created, changed or
    removed, and the call returns or throws what the driver's load returned
    or threw. *)
Theorem ptx_to_cumodule_without_ptxas (env : environment) (ptx : text)
    (cc : Z) (w : world) :
  use_system_ptxas env = false →
  files (fst (ptx_to_cumodule env ptx cc w)) = files w ∧
  calls (fst (ptx_to_cumodule env ptx cc w))
  = calls w ++ [call_exec ptxas_probe; call_cuModuleLoadDataEx ptx] ∧
  snd (ptx_to_cumodule env ptx cc w)
  = fst (fst (on_cuModuleLoadDataEx env ptx)).
Proof.
  intros Hprobe.
  destruct (ptx_to_cumodule_files_calls env ptx cc w) as [-> ->].
  rewrite ptx_to_cumodule_answer. unfold driver_answer. rewrite Hprobe.
  by rewrite ptx_to_cumodule_try_jit.
Qed.

Lemma ptx_to_cumodule_without_ptxas_witness :
  files (fst (ptx_to_cumodule jit_rejecting bad_ptx 70 world_start))
  = files world_start ∧
  calls (fst (ptx_to_cumodule jit_rejecting bad_ptx 70 world_start))
  = calls world_start
      ++ [call_exec ptxas_probe; call_cuModuleLoadDataEx bad_ptx] ∧
  snd (ptx_to_cumodule jit_rejecting bad_ptx 70 world_start)
  = fst (fst (on_cuModuleLoadDataEx jit_rejecting bad_ptx)).
Proof.
  apply (ptx_to_cumodule_without_ptxas jit_rejecting bad_ptx 70 world_start).
  reflexivity.
Defined.

(** X17. Nothing is written to [std::cout] or [std::cerr] unless the
    driver's load throws [invalid_ptx]: when it returns a handle or throws
    anything else, both streams are as they were. *)
Theorem ptx_to_cumodule_silent (env : environment) (ptx : text) (cc : Z)
    (w : world) :
  driver_answer env ptx cc w ≠ Throw invalid_ptx →
  cout (fst (ptx_to_cumodule env ptx cc w)) = cout w ∧
  cerr (fst (ptx_to_cumodule env ptx cc w)) = cerr w.
Proof.
  intros Hanswer. rewrite ptx_to_cumodule_catch.
  unfold driver_answer in Hanswer.
  destruct (use_system_ptxas env) eqn:Hprobe.
  - rewrite ptx_to_cumodule_try_ptxas by assumption. cbv zeta.
    destruct (on_cuModuleLoad _ _ _) as [m|[]]; by split.
  - rewrite ptx_to_cumodule_try_jit by assumption.
    destruct (fst (fst (on_cuModuleLoadDataEx env ptx))) as [m|[]]; by split.
Qed.

Lemma ptx_to_cumodule_silent_witness :
  cout (fst (ptx_to_cumodule ptxas_failing bad_ptx 70 world_start))
  = cout world_start ∧
  cerr (fst (ptx_to_cumodule ptxas_failing bad_ptx 70 world_start))
  = cerr world_start.
Proof.
  apply (ptx_to_cumodule_silent ptxas_failing bad_ptx 70 world_start).
  vm_compute. discriminate.
Defined.

(** X18. With [ptxas] chosen and a load that returns, [ptx_to_cumodule]
    returns the handle the load stored; the files are those the shell left
    less the two temporaries, which are gone; nothing is printed; and the
    calls made are the probe, the two [mkstemp], [system], the load and the
    two [unlink], in this order. *)
Theorem ptx_to_cumodule_with_ptxas_returns (env : environment) (ptx : text)
    (cc : Z) (w : world) (m : CUmodule) :
  use_system_ptxas env = true →
  on_cuModuleLoad env (object_name env w) (fst (assembled env ptx cc w))
  = Ok m →
  ptx_to_cumodule env ptx cc w
  = ({| files := delete (flog_name env w)
                   (delete (fsrc_name env w) (fst (assembled env ptx cc w)));
        cout := cout w; cerr := cerr w;
        calls := calls w ++ [call_exec ptxas_probe;
                             call_mkstemp (fsrc_name env w);
                             call_mkstemp (flog_name env w);
                             call_system (ptxas_cmd env cc w);
                             call_cuModuleLoad (object_name env w);
                             call_unlink (fsrc_name env w);
                             call_unlink (flog_name env w)] |}, Ok m) ∧
  files (fst (ptx_to_cumodule env ptx cc w)) !! fsrc_name env w = None ∧
  files (fst (ptx_to_cumodule env ptx cc w)) !! flog_name env w = None.
Proof.
  intros Hprobe Hload.
  assert (ptx_to_cumodule env ptx cc w
          = ({| files := delete (flog_name env w)
                           (delete (fsrc_name env w)
                              (fst (assembled env ptx cc w)));
                cout := cout w; cerr := cerr w;
                calls := calls w ++ [call_exec ptxas_probe;
                                     call_mkstemp (fsrc_name env w);
                                     call_mkstemp (flog_name env w);
                                     call_system (ptxas_cmd env cc w);
                                     call_cuModuleLoad (object_name env w);
                                     call_unlink (fsrc_name env w);
                                     call_unlink (flog_name env w)] |},
             Ok m)) as Hrun.
  { rewrite ptx_to_cumodule_catch.
    rewrite ptx_to_cumodule_try_ptxas by assumption. cbv zeta.
    rewrite Hload. by rewrite <- app_assoc. }
  split; [exact Hrun|]. rewrite Hrun. cbn [fst files]. split.
  - rewrite lookup_delete_ne
      by (intros E; symmetry in E; revert E; apply flog_name_not_fsrc).
    apply lookup_delete_eq.
  - apply lookup_delete_eq.
Qed.

Lemma ptx_to_cumodule_with_ptxas_returns_witness :
  files (fst (ptx_to_cumodule ptxas_working bad_ptx 70 world_start))
    !! fsrc_name ptxas_working world_start = None ∧
  files (fst (ptx_to_cumodule ptxas_working bad_ptx 70 world_start))
    !! flog_name ptxas_working world_start = None.
Proof.
  apply (ptx_to_cumodule_with_ptxas_returns ptxas_working bad_ptx 70
           world_start 1); vm_compute; reflexivity.
Defined.
